(** * Pipelines of the shell: [shell_funcs.c]

    A shallow embedding of [close_all], [run_piped_command] and
    [run_pipelined_commands], and the properties of the pipeline design
    that hold, or fail, on that code.

    The C functions talk to the operating system.  They are written here
    as trees of system calls ([prog]): a node is one call, and its
    children are what the code does for each value the call can return.
    [fork] is a node like the others: the branch taken for the value 0 is
    the program of the new process.  An interpreter ([exec_shell],
    [exec_child]) runs such a tree against a model of the kernel with one
    table of open descriptors per process and a [world] that says which
    calls fail.

    Integers are [Z]; the counters of the code are C [int]s, and the
    token counts they hold are far below the wrap-around. *)

From Stdlib Require Import ZArith List String Bool Lia Arith.
Import ListNotations.
Local Open Scope string_scope.
Local Open Scope list_scope.
Local Open Scope Z_scope.

(** ** String vectors *)

(** [strvec_t]: the tokens in order; the [length] field is the length of
    the list. *)
Definition strvec := list string.

Definition vlength (v : strvec) : Z := Z.of_nat (List.length v).

(** Modelled from the spec: [string_vector.c] is not among the sources;
    only its header is included by [shell_funcs.c].  The three functions
    used by the segmentation are modelled from their names and from the
    way [run_pipelined_commands] calls them: [strvec_num_occurrences]
    counts the tokens equal to [s]. *)
Definition strvec_num_occurrences (v : strvec) (s : string) : Z :=
  Z.of_nat (count_occ string_dec v s).

(** Modelled from the spec: [strvec_find] (absent, see above) gives the
    index of the first token equal to [s], or -1 when there is none. *)
Fixpoint strvec_find (v : strvec) (s : string) : Z :=
  match v with
  | [] => -1
  | x :: r =>
      if String.eqb x s then 0
      else let k := strvec_find r s in
           if k =? -1 then -1 else k + 1
  end.

(** Modelled from the spec: [strvec_slice src dest start end] (absent,
    see above) copies the tokens at the indices start, ..., end-1 of
    [src] into [dest] and returns 0, or returns 1 when the bounds are
    not inside [src].  [Some] is the vector written to [dest], [None]
    the return value 1.  An empty range gives the empty vector: the
    spec has a delimiter next to another, or to an end of the sequence,
    yield an empty segment.  Failure of the allocation inside it is not
    modelled. *)
Definition strvec_slice (src : strvec) (start end_ : Z) : option strvec :=
  if (start <? 0) || (vlength src <? end_) || (end_ <? start) then None
  else Some (firstn (Z.to_nat (end_ - start)) (skipn (Z.to_nat start) src)).

(** ** Segmentation (lines 94-139 of [shell_funcs.c]) *)

Inductive seg_outcome : Type :=
| SegOk (sliced_tokens : list strvec)
| SegSliceError            (* a [strvec_slice] call returned 1 *)
| SegNoFuel.               (* the [while] loop was cut short *)

(** The [while] loop of lines 111-131.  [sliced_tokens] is the array of
    target vectors filled so far (its length is [n_added_commands]);
    [fuel] bounds the number of iterations.  The last slice, after the
    loop (line 134), is the [-1] branch. *)
Fixpoint slice_loop (fuel : nat) (tokens cur_tokens : strvec) (start_idx : Z)
    (sliced_tokens : list strvec) : seg_outcome :=
  let pipe_token_idx := strvec_find cur_tokens "|" in
  if pipe_token_idx =? -1 then
    match strvec_slice cur_tokens 0 (vlength cur_tokens) with
    | None => SegSliceError
    | Some last => SegOk (sliced_tokens ++ [last])
    end
  else
    match fuel with
    | O => SegNoFuel
    | S fuel' =>
        match strvec_slice cur_tokens 0 pipe_token_idx with
        | None => SegSliceError
        | Some target =>
            let start_idx := start_idx + (pipe_token_idx + 1) in
            match strvec_slice tokens start_idx (vlength tokens) with
            | None => SegSliceError
            | Some cur_tokens' =>
                slice_loop fuel' tokens cur_tokens' start_idx
                           (sliced_tokens ++ [target])
            end
        end
    end.

(** Lines 95-139: copy the tokens, then slice at every "|".  One
    iteration consumes at least one token, so [length tokens] iterations
    are enough (see [slice_loop_fuel]). *)
Definition segment (tokens : strvec) : seg_outcome :=
  match strvec_slice tokens 0 (vlength tokens) with
  | None => SegSliceError
  | Some cur_tokens =>
      slice_loop (List.length tokens) tokens cur_tokens 0 []
  end.

(** The segments of a token list, by recursion on the list: the
    reference the loop is compared with. *)
Fixpoint split_on (d : string) (l : strvec) : list strvec :=
  match l with
  | [] => [[]]
  | x :: r =>
      if String.eqb x d then [] :: split_on d r
      else match split_on d r with
           | s :: ss => (x :: s) :: ss
           | [] => [[x]]
           end
  end.

(** Concatenation of the segments with the delimiter put back between
    two consecutive ones. *)
Fixpoint rejoin (d : string) (segs : list strvec) : strvec :=
  match segs with
  | [] => []
  | s :: rest =>
      match rest with
      | [] => s
      | _ :: _ => s ++ d :: rejoin d rest
      end
  end.

(** ** Programs as trees of system calls *)

(** The calls made by [shell_funcs.c].  A descriptor is named by the
    index of the array slot that holds it: [SClose idx] is
    [close(fds[idx])] for the descriptor array in scope ([pipe_fds] in
    [run_pipelined_commands], [pipes] in [run_piped_command], [fds] in
    [close_all]), [SPipe idx] is [pipe(pipe_fds + idx)], which fills the
    slots [idx] and [idx + 1], and [SDup2 idx fd] is
    [dup2(pipes[idx], fd)]. *)
Inductive syscall : Type :=
| SMalloc (n : Z)              (* malloc(sizeof(strvec_t) * n) *)
| SFree                        (* free(sliced_tokens) *)
| SPipe (idx : Z)
| SFork
| SClose (idx : Z)
| SDup2 (idx : Z) (newfd : Z)
| SWait                        (* wait(NULL) *)
| SRunCommand (tokens : strvec)
| SPerror (msg : string)
| SFprintf (msg : string).     (* fprintf(stderr, msg) *)

Definition STDIN_FILENO : Z := 0.
Definition STDOUT_FILENO : Z := 1.

(** A program is a leaf ([return a;], [exit(status);], a loop that does
    not end) or a call followed by what the code does with its value. *)
Inductive prog (A : Type) : Type :=
| Ret (a : A)
| Exit (status : Z)
| Hang
| Sys (c : syscall) (k : Z -> prog A).

Arguments Ret {A} a.
Arguments Exit {A} status.
Arguments Hang {A}.
Arguments Sys {A} c k.

Fixpoint bind {A B : Type} (p : prog A) (f : A -> prog B) : prog B :=
  match p with
  | Ret a => f a
  | Exit status => Exit status
  | Hang => Hang
  | Sys c k => Sys c (fun z => bind (k z) f)
  end.

Definition call (c : syscall) : prog Z := Sys c Ret.

Declare Scope prog_scope.
Delimit Scope prog_scope with prog.
Notation "x <- p ;; q" := (bind p (fun x => q))
  (at level 61, p at next level, right associativity) : prog_scope.
Notation "p ;; q" := (bind p (fun _ => q))
  (at level 61, right associativity) : prog_scope.
Local Open Scope prog_scope.

Definition perror {A} (msg : string) (rest : prog A) : prog A :=
  call (SPerror msg) ;; rest.
Definition fprintf {A} (msg : string) (rest : prog A) : prog A :=
  call (SFprintf msg) ;; rest.
Definition free {A} (rest : prog A) : prog A :=
  call SFree ;; rest.

(** [for (int i = i0; ...; i++) body]: [n] iterations are left and the
    body is given the rest of the loop, which it drops when it returns
    or exits early. *)
Fixpoint for_loop {A} (n : nat) (i : Z) (body : Z -> prog A -> prog A)
    (after : prog A) : prog A :=
  match n with
  | O => after
  | S n' => body i (for_loop n' (i + 1) body after)
  end.

(** ** The functions of [shell_funcs.c] *)

(** Lines 20-29.  [ret_val] is the local variable of that name. *)
Fixpoint close_all_loop (n : nat) (i : Z) (ret_val : Z) : prog Z :=
  match n with
  | O => Ret ret_val
  | S n' =>
      r <- call (SClose i) ;;
      if r =? -1 then perror "close" (close_all_loop n' (i + 1) 1)
      else close_all_loop n' (i + 1) ret_val
  end.

Definition close_all (n : Z) : prog Z := close_all_loop (Z.to_nat n) 0 0.

(** Lines 45-79. *)
Definition run_piped_command (tokens : strvec) (n_pipes in_idx out_idx : Z)
    : prog Z :=
  let run :=
    r <- call (SRunCommand tokens) ;;
    if r =? 1 then fprintf "Error run_command" (Ret 1)
    else Ret 0 in
  let output :=
    if negb (out_idx =? -1) then
      r <- call (SDup2 out_idx STDOUT_FILENO) ;;
      if r =? -1 then perror "dup2" (Ret 1) else
      r <- call (SClose out_idx) ;;
      if r =? -1 then perror "close" (Ret 1) else
      run
    else run in
  if negb (in_idx =? -1) then
    r <- call (SDup2 in_idx STDIN_FILENO) ;;
    if r =? -1 then perror "dup2" (Ret 1) else
    r <- call (SClose in_idx) ;;
    if r =? -1 then perror "close" (Ret 1) else
    output
  else output.

(** Lines 177-222: the branch of the new process ([child_pid == 0]).
    [sliced_tokens + i] is the [i]-th target vector. *)
Definition child_branch (sliced_tokens : list strvec)
    (num_pipes ncommands i : Z) : prog Z :=
  let cur_token_vector := nth (Z.to_nat i) sliced_tokens [] in
  free (
    (if i =? 0 then
       r <- call (SClose (2 * i)) ;;
       if r =? -1 then perror "close" (Exit 1) else
       r <- run_piped_command cur_token_vector num_pipes (-1) 1 ;;
       if r =? -1 then fprintf "Error run_piped_command" (Exit 1)
       else Ret 0
     else if i =? ncommands - 1 then
       r <- run_piped_command cur_token_vector num_pipes
              (2 * (ncommands - 1) - 2) (-1) ;;
       if r =? -1 then fprintf "Error run_piped_command" (Exit 1)
       else Ret 0
     else
       r <- call (SClose (2 * i)) ;;
       if r =? -1 then perror "close" (Exit 1) else
       r <- run_piped_command cur_token_vector num_pipes
              (2 * i - 2) (2 * i + 1) ;;
       if r =? -1 then fprintf "Error run_piped_command" (Exit 1)
       else Ret 0) ;;
    Exit 0).

(** Lines 147-250: one iteration of the spawn loop; [next] is the rest
    of the function. *)
Definition spawn_body (sliced_tokens : list strvec) (num_pipes ncommands : Z)
    (i : Z) (next : prog Z) : prog Z :=
  let close_write :=
    if negb (i =? ncommands - 1) then
      r <- call (SClose (2 * i + 1)) ;;
      if r =? -1 then perror "close" (free (Ret 1)) else
      next
    else next in
  let spawn :=
    child_pid <- call SFork ;;
    if child_pid =? -1 then
      r <- call (SClose (2 * i)) ;;
      if r =? -1 then perror "close" (free (Ret 1)) else
      r <- call (SClose (2 * i + 1)) ;;
      if r =? -1 then perror "close" (free (Ret 1)) else
      perror "fork" (free (Ret 1))
    else if child_pid =? 0 then
      child_branch sliced_tokens num_pipes ncommands i
    else
      if negb (i =? 0) then
        r <- call (SClose (2 * i - 2)) ;;
        if r =? -1 then perror "close" (free (Ret 1)) else
        close_write
      else close_write in
  if negb (i =? ncommands - 1) then
    r <- call (SPipe (2 * i)) ;;
    if r =? -1 then perror "pipe" (free (Ret 1)) else
    spawn
  else spawn.

(** Lines 253-259: one iteration of the wait loop. *)
Definition wait_body (i : Z) (next : prog Z) : prog Z :=
  r <- call SWait ;;
  if r =? -1 then perror "wait" (free (Ret 1)) else
  next.

(** Lines 81-265. *)
Definition run_pipelined_commands (tokens : strvec) : prog Z :=
  let num_pipes := strvec_num_occurrences tokens "|" in
  let ncommands := num_pipes + 1 in
  p <- call (SMalloc ncommands) ;;
  if p =? 0 then fprintf "Error malloc'ing" (Ret 1) else
  match segment tokens with
  | SegSliceError => fprintf "Error strvec_slice" (free (Ret 1))
  | SegNoFuel => Hang
  | SegOk sliced_tokens =>
      for_loop (Z.to_nat ncommands) 0
        (spawn_body sliced_tokens num_pipes ncommands)
        (for_loop (Z.to_nat ncommands) 0 wait_body
           (free (Ret 0)))
  end.

(** ** The kernel model *)

(** The processes of one invocation: the shell that calls
    [run_pipelined_commands], and the processes it creates, numbered in
    the order of the successful [fork] calls. *)
Inductive proc : Type :=
| Shell
| Child (i : nat).

(** What the environment decides.  A call fails when the world says so;
    [close] and [dup2] also fail on a descriptor that is not open in the
    calling process.  [runner] is the collaborator [run_command], which
    is not in [shell_funcs.c]: [None] when it replaces the process image
    (it does not return), [Some r] when it returns [r].
    [program_status] is the exit status of the external program. *)
Record world : Type := {
  malloc_fails : bool;
  pipe_fails : Z -> bool;              (* by slot of [pipe_fds] *)
  fork_fails : nat -> bool;            (* by number of earlier forks *)
  close_fails : proc -> Z -> bool;     (* by process and slot *)
  dup2_fails : proc -> Z -> bool;      (* by process and slot *)
  wait_fails : nat -> bool;            (* by number of earlier waits *)
  runner : proc -> strvec -> option Z;
  program_status : strvec -> Z
}.

(** The descriptors of one process: the slots of the descriptor array
    whose descriptor is open, and what the two standard streams are
    ([None]: the stream the process started with; [Some idx]: a
    duplicate of the endpoint in slot [idx]).  A slot that no [pipe]
    call filled holds no open descriptor. *)
Record fdstate : Type := {
  open : list Z;
  std_in : option Z;
  std_out : option Z
}.

Definition no_fds : fdstate := {| open := []; std_in := None; std_out := None |}.

Definition is_open (s : fdstate) (idx : Z) : bool :=
  existsb (Z.eqb idx) (open s).

Definition release (idx : Z) (s : fdstate) : fdstate :=
  {| open := filter (fun x => negb (x =? idx)) (open s);
     std_in := std_in s; std_out := std_out s |}.

Definition allocate (idx : Z) (s : fdstate) : fdstate :=
  {| open := open s ++ [idx; idx + 1];
     std_in := std_in s; std_out := std_out s |}.

Definition redirect (idx newfd : Z) (s : fdstate) : fdstate :=
  {| open := open s;
     std_in := if newfd =? STDIN_FILENO then Some idx else std_in s;
     std_out := if newfd =? STDOUT_FILENO then Some idx else std_out s |}.

(** The calls that concern one process only: the value returned and the
    descriptors afterwards.  [malloc] returns a non-null pointer (1) or
    NULL (0); [free], [perror] and [fprintf] have no value the code
    reads. *)
Definition local_call (w : world) (me : proc) (c : syscall) (s : fdstate)
    : Z * fdstate :=
  match c with
  | SMalloc _ => (if malloc_fails w then 0 else 1, s)
  | SPipe idx =>
      if pipe_fails w idx then (-1, s) else (0, allocate idx s)
  | SClose idx =>
      if is_open s idx && negb (close_fails w me idx)
      then (0, release idx s) else (-1, s)
  | SDup2 idx newfd =>
      if is_open s idx && negb (dup2_fails w me idx)
      then (newfd, redirect idx newfd s) else (-1, s)
  | _ => (0, s)
  end.

(** One call and the value it returned. *)
Definition event : Type := syscall * Z.

(** How a process ends: the function returns to its caller, the process
    exits, [run_command] replaced its image, or it loops. *)
Inductive termination : Type :=
| Returned (r : Z)
| Exited (status : Z)
| Execed (tokens : strvec)
| Hung.

(** A spawned process: the descriptors it had when it was created, the
    calls it made (a [run_command] that does not return is not an event:
    it is the ending [Execed]), its descriptors at the end, and how it
    ended. *)
Record child : Type := {
  inherited : list Z;
  c_trace : list event;
  c_fds : fdstate;
  c_end : termination
}.

(** A spawned process runs its branch of the tree.  It has no children
    of its own: [wait] returns -1 there, and the model gives it no
    further process ([fork] returns -1); the branch of
    [run_pipelined_commands] makes neither call. *)
Fixpoint exec_child (w : world) (me : proc) (p : prog Z)
    (s : fdstate) (tr : list event) : list event * fdstate * termination :=
  match p with
  | Ret r => (tr, s, Returned r)
  | Exit status => (tr, s, Exited status)
  | Hang => (tr, s, Hung)
  | Sys c k =>
      match c with
      | SRunCommand tokens =>
          match runner w me tokens with
          | None => (tr, s, Execed tokens)
          | Some r => exec_child w me (k r) s (tr ++ [(c, r)])
          end
      | SFork | SWait => exec_child w me (k (-1)) s (tr ++ [(c, -1)])
      | _ =>
          let (r, s') := local_call w me c s in
          exec_child w me (k r) s' (tr ++ [(c, r)])
      end
  end.

Definition spawn (w : world) (me : proc) (p : prog Z) (s : fdstate) : child :=
  let '(tr, s', e) := exec_child w me p s [] in
  {| inherited := open s; c_trace := tr; c_fds := s'; c_end := e |}.

(** The state of the shell process while it runs the function. *)
Record shell : Type := {
  sh_fds : fdstate;
  sh_trace : list event;
  sh_children : list child;    (* in the order of creation *)
  sh_waits : nat               (* successful [wait] calls *)
}.

Definition shell_start : shell :=
  {| sh_fds := no_fds; sh_trace := []; sh_children := []; sh_waits := 0 |}.

Definition log (e : event) (fds : fdstate) (st : shell) : shell :=
  {| sh_fds := fds; sh_trace := sh_trace st ++ [e];
     sh_children := sh_children st; sh_waits := sh_waits st |}.

Definition add_child (c : child) (st : shell) : shell :=
  {| sh_fds := sh_fds st; sh_trace := sh_trace st;
     sh_children := sh_children st ++ [c]; sh_waits := sh_waits st |}.

Definition reaped (st : shell) : shell :=
  {| sh_fds := sh_fds st; sh_trace := sh_trace st;
     sh_children := sh_children st; sh_waits := S (sh_waits st) |}.

(** The shell process.  A successful [fork] creates a process with a
    copy of the shell's descriptors that runs the branch for the value
    0, and returns a positive identifier to the shell.  [wait] succeeds
    when a created process has not been waited for yet (the external
    programs are taken to end). *)
Fixpoint exec_shell (w : world) (p : prog Z) (st : shell)
    : shell * termination :=
  match p with
  | Ret r => (st, Returned r)
  | Exit status => (st, Exited status)
  | Hang => (st, Hung)
  | Sys c k =>
      match c with
      | SFork =>
          let n := List.length (sh_children st) in
          if fork_fails w n then
            exec_shell w (k (-1)) (log (c, -1) (sh_fds st) st)
          else
            let pid := Z.of_nat (S n) in
            let ch := spawn w (Child n) (k 0) (sh_fds st) in
            exec_shell w (k pid) (add_child ch (log (c, pid) (sh_fds st) st))
      | SWait =>
          if (sh_waits st <? List.length (sh_children st))%nat
             && negb (wait_fails w (sh_waits st))
          then
            let pid := Z.of_nat (S (sh_waits st)) in
            exec_shell w (k pid) (reaped (log (c, pid) (sh_fds st) st))
          else exec_shell w (k (-1)) (log (c, -1) (sh_fds st) st)
      | SRunCommand tokens =>
          match runner w Shell tokens with
          | None => (st, Execed tokens)
          | Some r => exec_shell w (k r) (log (c, r) (sh_fds st) st)
          end
      | _ =>
          let (r, fds) := local_call w Shell c (sh_fds st) in
          exec_shell w (k r) (log (c, r) fds st)
      end
  end.

(** The status [wait] would report for a spawned process. *)
Definition exit_status (w : world) (c : child) : option Z :=
  match c_end c with
  | Exited status => Some status
  | Execed tokens => Some (program_status w tokens)
  | Returned _ | Hung => None
  end.

(** One invocation of [run_pipelined_commands] by the shell. *)
Definition run (w : world) (tokens : strvec) : shell * termination :=
  exec_shell w (run_pipelined_commands tokens) shell_start.

(** The slots on which a trace has a [close] call, in order. *)
Fixpoint closes (tr : list event) : list Z :=
  match tr with
  | [] => []
  | (SClose idx, _) :: rest => idx :: closes rest
  | _ :: rest => closes rest
  end.

(** The [dup2] calls of a trace: slot and target descriptor. *)
Fixpoint dups (tr : list event) : list (Z * Z) :=
  match tr with
  | [] => []
  | (SDup2 idx newfd, _) :: rest => (idx, newfd) :: dups rest
  | _ :: rest => dups rest
  end.

(** The number of [wait] calls of a trace. *)
Fixpoint wait_calls (tr : list event) : nat :=
  match tr with
  | [] => 0
  | (SWait, _) :: rest => S (wait_calls rest)
  | _ :: rest => wait_calls rest
  end.

(** The calls of a trace that failed: all but [malloc] return -1 then,
    [malloc] returns NULL. *)
Definition failed (e : event) : bool :=
  match e with
  | (SMalloc _, r) => r =? 0
  | (SFree, _) | (SPerror _, _) | (SFprintf _, _) => false
  | (_, r) => r =? -1
  end.

(** The world in which nothing fails and every command is found. *)
Definition calm (status : strvec -> Z) : world :=
  {| malloc_fails := false;
     pipe_fails := fun _ => false;
     fork_fails := fun _ => false;
     close_fails := fun _ _ => false;
     dup2_fails := fun _ _ => false;
     wait_fails := fun _ => false;
     runner := fun _ _ => None;
     program_status := status |}.

(** ** Descriptions of runs *)

(** The shell's calls of iteration [i] do not fail by the world's
    decision. *)
Definition shell_calm_at (w : world) (i : Z) : bool :=
  negb (pipe_fails w (2 * i)) && negb (fork_fails w (Z.to_nat i))
  && negb (close_fails w Shell (2 * i - 2))
  && negb (close_fails w Shell (2 * i + 1)).

(** The indices i, i+1, ..., i+n-1. *)
Definition range (i : Z) (n : nat) : list Z :=
  map (fun t => i + Z.of_nat t) (seq 0 n).

Definition shell_calm (w : world) (i : Z) (n : nat) : bool :=
  forallb (shell_calm_at w) (range i n).

(** The shell's descriptors before iteration [i] of a loop of [nc]
    iterations: the read end of the previous channel. *)
Definition shell_fds (nc i : Z) : fdstate :=
  {| open := if (i =? 0) || (i =? nc) then [] else [2 * i - 2];
     std_in := None; std_out := None |}.

(** The descriptors the [i]-th process starts with. *)
Definition fork_fds (nc i : Z) : fdstate :=
  {| open := (if i =? 0 then [] else [2 * i - 2])
             ++ (if i =? nc - 1 then [] else [2 * i; 2 * i + 1]);
     std_in := None; std_out := None |}.

(** The [i]-th process. *)
Definition child_at (w : world) (sliced : list strvec) (np nc i : Z) : child :=
  spawn w (Child (Z.to_nat i)) (child_branch sliced np nc i) (fork_fds nc i).

(** The slots the shell closes in iteration [i]. *)
Definition shell_closes (nc i : Z) : list Z :=
  (if i =? 0 then [] else [2 * i - 2])
  ++ (if i =? nc - 1 then [] else [2 * i + 1]).

(** The first [close] of the shell that the world makes fail in
    iteration [i]: the previous read end, or else the new write end. *)
Definition shell_close_fails_at (w : world) (nc i : Z) : bool :=
  (negb (i =? 0) && close_fails w Shell (2 * i - 2))
  || (negb (i =? nc - 1) && close_fails w Shell (2 * i + 1)).

Definition num_pipes_of (tokens : strvec) : Z := strvec_num_occurrences tokens "|".
Definition ncommands_of (tokens : strvec) : Z := num_pipes_of tokens + 1.

(** The process created for command [i] of [tokens]. *)
Definition command_process (w : world) (tokens : strvec) (i : Z) : child :=
  child_at w (split_on "|" tokens) (num_pipes_of tokens) (ncommands_of tokens) i.

(** No call made by the shell fails by the world's decision; the
    spawned processes are left free to fail. *)
Definition shell_quiet (w : world) (tokens : strvec) : bool :=
  let n := Z.to_nat (ncommands_of tokens) in
  negb (malloc_fails w) && shell_calm w 0 n
  && forallb (fun t => negb (wait_fails w t)) (seq 0 n).

(** The calls of process [i] of [nc >= 2] in a calm world. *)
Definition calm_child_trace (nc i : Z) : list event :=
  if i =? 0 then
    [(SFree, 0); (SClose 0, 0); (SDup2 1 STDOUT_FILENO, STDOUT_FILENO);
     (SClose 1, 0)]
  else if i =? nc - 1 then
    [(SFree, 0); (SDup2 (2 * i - 2) STDIN_FILENO, STDIN_FILENO);
     (SClose (2 * i - 2), 0)]
  else
    [(SFree, 0); (SClose (2 * i), 0);
     (SDup2 (2 * i - 2) STDIN_FILENO, STDIN_FILENO); (SClose (2 * i - 2), 0);
     (SDup2 (2 * i + 1) STDOUT_FILENO, STDOUT_FILENO); (SClose (2 * i + 1), 0)].

(** The iteration in which the shell closes slot [s]: the read end of
    channel c (slot 2c) after process c+1 is created, the write end
    (slot 2c+1) after process c is; -1 for a slot that is no endpoint. *)
Definition closer (nc s : Z) : Z :=
  if (0 <=? s) && (s <? 2 * (nc - 1)) then
    if s mod 2 =? 0 then s / 2 + 1 else s / 2
  else -1.

(** The wait loop and the end of the function. *)
Definition reap_all (tokens : strvec) : prog Z :=
  for_loop (Z.to_nat (ncommands_of tokens)) 0 wait_body (free (Ret 0)).

(** The external program "false" exits with status 1, the others with 0. *)
Definition status_of (t : strvec) : Z :=
  if list_eq_dec string_dec t ["false"] then 1 else 0.

(** Nothing fails, but the [n]-th [fork] call does. *)
Definition fork_fails_at (n : nat) : world :=
  {| malloc_fails := false;
     pipe_fails := fun _ => false;
     fork_fails := fun k => (k =? n)%nat;
     close_fails := fun _ _ => false;
     dup2_fails := fun _ _ => false;
     wait_fails := fun _ => false;
     runner := fun _ _ => None;
     program_status := status_of |}.

(** Nothing fails, but the [pipe] call that fills slot [idx] does. *)
Definition pipe_fails_at (idx : Z) : world :=
  {| malloc_fails := false;
     pipe_fails := fun k => k =? idx;
     fork_fails := fun _ => false;
     close_fails := fun _ _ => false;
     dup2_fails := fun _ _ => false;
     wait_fails := fun _ => false;
     runner := fun _ _ => None;
     program_status := status_of |}.

(** Nothing fails, but the shell's [close] of slot [idx] does. *)
Definition shell_close_fails_on (idx : Z) : world :=
  {| malloc_fails := false;
     pipe_fails := fun _ => false;
     fork_fails := fun _ => false;
     close_fails := fun p k => match p with Shell => k =? idx | Child _ => false end;
     dup2_fails := fun _ _ => false;
     wait_fails := fun _ => false;
     runner := fun _ _ => None;
     program_status := status_of |}.

(** Nothing fails, but [run_command] returns 1 in process [n] (the
    program is not found). *)
Definition runner_fails_in (n : nat) : world :=
  {| malloc_fails := false;
     pipe_fails := fun _ => false;
     fork_fails := fun _ => false;
     close_fails := fun _ _ => false;
     dup2_fails := fun _ _ => false;
     wait_fails := fun _ => false;
     runner := fun p _ => match p with
                          | Child k => if (k =? n)%nat then Some 1 else None
                          | Shell => None
                          end;
     program_status := status_of |}.

(** Nothing fails, but every [dup2] call of process [n] does. *)
Definition dup2_fails_in (n : nat) : world :=
  {| malloc_fails := false;
     pipe_fails := fun _ => false;
     fork_fails := fun _ => false;
     close_fails := fun _ _ => false;
     dup2_fails := fun p _ => match p with Child k => (k =? n)%nat | Shell => false end;
     wait_fails := fun _ => false;
     runner := fun _ _ => None;
     program_status := status_of |}.

(** The exit statuses of the spawned processes of a run, in order. *)
Definition statuses (w : world) (r : shell * termination) : list (option Z) :=
  map (exit_status w) (sh_children (fst r)).

(** The endings of the spawned processes of a run, in order. *)
Definition endings (r : shell * termination) : list termination :=
  map c_end (sh_children (fst r)).

(** The calls a spawned process may make: all but [malloc], [pipe],
    [fork] and [wait]. *)
Definition child_call (e : event) : bool :=
  match fst e with
  | SMalloc _ | SPipe _ | SFork | SWait => false
  | _ => true
  end.

(** The slots the descriptor of which [close_all] can release: those
    that are open and whose [close] the world lets through. *)
Definition closable (w : world) (s : fdstate) (idx : Z) : bool :=
  is_open s idx && negb (close_fails w Shell idx).



(** * Proofs *)

(** ** Segmentation *)

Section Segmentation.

Variable d : string.

Lemma strvec_find_range (v : strvec) :
  strvec_find v d = -1 \/ 0 <= strvec_find v d < vlength v.
Proof.
  unfold vlength. induction v as [|x r IH]; simpl strvec_find.
  - now left.
  - destruct (String.eqb x d).
    + right. simpl List.length. lia.
    + destruct IH as [-> | IH]; [now left|].
      right. destruct (Z.eqb_spec (strvec_find r d) (-1)); simpl List.length; lia.
Qed.

Lemma split_on_absent (v : strvec) :
  strvec_find v d = -1 -> split_on d v = [v] /\ count_occ string_dec v d = 0%nat.
Proof.
  induction v as [|x r IH]; simpl; intros H.
  - now split.
  - destruct (String.eqb_spec x d) as [->|Hne]; [discriminate|].
    destruct (Z.eqb_spec (strvec_find r d) (-1)) as [E|E].
    + destruct (IH E) as [-> Hc]. split; [reflexivity|].
      destruct (string_dec x d); [contradiction|assumption].
    + destruct (strvec_find_range r); lia.
Qed.

Lemma split_on_found (v : strvec) :
  strvec_find v d <> -1 ->
  let k := Z.to_nat (strvec_find v d) in
  split_on d v = firstn k v :: split_on d (skipn (S k) v) /\
  count_occ string_dec v d = S (count_occ string_dec (skipn (S k) v) d).
Proof.
  induction v as [|x r IH]; simpl; intros H.
  - contradiction.
  - destruct (String.eqb_spec x d) as [->|Hne].
    + simpl. split; [reflexivity|].
      destruct (string_dec d d); [reflexivity|contradiction].
    + destruct (Z.eqb_spec (strvec_find r d) (-1)) as [E|E]; [contradiction|].
      destruct (IH E) as [Hs Hc].
      assert (Hk : Z.to_nat (strvec_find r d + 1) = S (Z.to_nat (strvec_find r d))).
      { destruct (strvec_find_range r); lia. }
      rewrite Hk. simpl. rewrite Hs. split; [reflexivity|].
      destruct (string_dec x d); [contradiction|]. exact Hc.
Qed.

Lemma split_on_length (v : strvec) :
  List.length (split_on d v) = S (count_occ string_dec v d).
Proof.
  induction v as [|x r IH]; simpl; [reflexivity|].
  destruct (String.eqb_spec x d) as [->|Hne].
  - destruct (string_dec d d); [|contradiction]. simpl. now rewrite IH.
  - destruct (string_dec x d); [contradiction|].
    destruct (split_on d r); simpl in *; [discriminate|exact IH].
Qed.

Lemma rejoin_split_on (v : strvec) : rejoin d (split_on d v) = v.
Proof.
  induction v as [|x r IH]; simpl; [reflexivity|].
  destruct (String.eqb_spec x d) as [->|Hne].
  - pose proof (split_on_length r) as Hl.
    simpl. destruct (split_on d r) eqn:E; [discriminate|].
    now rewrite IH.
  - pose proof (split_on_length r) as Hl.
    destruct (split_on d r) as [|s ss] eqn:E; [discriminate|].
    simpl in *. destruct ss; rewrite <- IH; reflexivity.
Qed.

End Segmentation.

Lemma strvec_slice_prefix (v : strvec) (k : Z) :
  0 <= k <= vlength v -> strvec_slice v 0 k = Some (firstn (Z.to_nat k) v).
Proof.
  intros H. unfold strvec_slice.
  destruct (Z.ltb_spec 0 0); [lia|].
  destruct (Z.ltb_spec (vlength v) k); [lia|].
  destruct (Z.ltb_spec k 0); [lia|].
  simpl. now rewrite Z.sub_0_r.
Qed.

Lemma strvec_slice_suffix (v : strvec) (k : Z) :
  0 <= k <= vlength v ->
  strvec_slice v k (vlength v) = Some (skipn (Z.to_nat k) v).
Proof.
  intros H. unfold strvec_slice.
  destruct (Z.ltb_spec k 0); [lia|].
  destruct (Z.ltb_spec (vlength v) (vlength v)); [lia|].
  destruct (Z.ltb_spec (vlength v) k); [lia|].
  simpl. f_equal. apply firstn_all2. rewrite length_skipn.
  unfold vlength in *. lia.
Qed.

Lemma strvec_slice_all (v : strvec) : strvec_slice v 0 (vlength v) = Some v.
Proof.
  rewrite strvec_slice_suffix; [reflexivity|]. unfold vlength. lia.
Qed.

(** The loop computes [split_on], from any position it can reach and
    with any fuel that covers the delimiters still ahead. *)
Lemma slice_loop_fuel (fuel : nat) :
  forall (tokens : strvec) (start : nat) (acc : list strvec),
    (start <= List.length tokens)%nat ->
    (count_occ string_dec (skipn start tokens) "|" <= fuel)%nat ->
    slice_loop fuel tokens (skipn start tokens) (Z.of_nat start) acc
    = SegOk (acc ++ split_on "|" (skipn start tokens)).
Proof.
  induction fuel as [|fuel IH]; intros tokens start acc Hs Hc.
  - destruct (Z.eq_dec (strvec_find (skipn start tokens) "|") (-1)) as [E|E].
    + simpl. rewrite E. simpl. rewrite strvec_slice_all.
      now destruct (split_on_absent _ _ E) as [-> _].
    + destruct (split_on_found _ _ E) as [_ Hk]. cbv zeta in Hk. lia.
  - destruct (Z.eq_dec (strvec_find (skipn start tokens) "|") (-1)) as [E|E].
    + simpl. rewrite E. simpl. rewrite strvec_slice_all.
      now destruct (split_on_absent _ _ E) as [-> _].
    + destruct (split_on_found _ _ E) as [Hsp Hk]. cbv zeta in Hsp, Hk.
      pose proof (strvec_find_range "|" (skipn start tokens)) as Hr.
      destruct Hr as [Hr|Hr]; [contradiction|].
      unfold vlength in Hr. rewrite length_skipn in Hr.
      cbn [slice_loop].
      destruct (Z.eqb_spec (strvec_find (skipn start tokens) "|") (-1)) as [|_];
        [contradiction|].
      rewrite strvec_slice_prefix
        by (unfold vlength; rewrite length_skipn; lia).
      set (k := Z.to_nat (strvec_find (skipn start tokens) "|")) in *.
      replace (Z.of_nat start + (strvec_find (skipn start tokens) "|" + 1))
        with (Z.of_nat (S k + start)) by lia.
      rewrite strvec_slice_suffix by (unfold vlength; lia).
      rewrite Nat2Z.id.
      assert (Hsk : skipn (S k) (skipn start tokens) = skipn (S k + start) tokens)
        by apply skipn_skipn.
      rewrite Hsk in Hsp, Hk.
      rewrite IH; [| lia | lia].
      rewrite Hsp, <- app_assoc. reflexivity.
Qed.

Lemma segment_split_on (tokens : strvec) :
  segment tokens = SegOk (split_on "|" tokens).
Proof.
  unfold segment. rewrite strvec_slice_all.
  apply (slice_loop_fuel (List.length tokens) tokens 0 []); [lia|].
  simpl. apply count_occ_bound.
Qed.

(** C2. For every token sequence with k occurrences of the delimiter "|",
    the segmentation step of [run_pipelined_commands] ends with exactly
    k+1 segments, and putting the delimiter back between consecutive
    segments gives the original sequence. *)
Theorem segment_count_and_round_trip (tokens : strvec) :
  exists segs : list strvec,
    segment tokens = SegOk segs /\
    Z.of_nat (List.length segs) = strvec_num_occurrences tokens "|" + 1 /\
    rejoin "|" segs = tokens.
Proof.
  exists (split_on "|" tokens). split; [apply segment_split_on|]. split.
  - rewrite split_on_length. unfold strvec_num_occurrences. lia.
  - apply rejoin_split_on.
Qed.

(** ** [close_all] *)

Lemma closes_app (t1 t2 : list event) : closes (t1 ++ t2) = closes t1 ++ closes t2.
Proof.
  induction t1 as [|[c r] t1 IH]; simpl; [reflexivity|].
  destruct c; simpl; now rewrite IH.
Qed.

Lemma wait_calls_app (t1 t2 : list event) :
  wait_calls (t1 ++ t2) = (wait_calls t1 + wait_calls t2)%nat.
Proof.
  induction t1 as [|[c r] t1 IH]; simpl; [reflexivity|].
  destruct c; simpl; now rewrite IH.
Qed.

Lemma close_all_loop_spec (w : world) (n : nat) :
  forall (i ret_val : Z) (st : shell),
  exists (tr : list event) (st' : shell),
    exec_shell w (close_all_loop n i ret_val) st
      = (st', Returned (if existsb failed tr then 1 else ret_val)) /\
    sh_trace st' = sh_trace st ++ tr /\
    closes tr = map (fun j => i + Z.of_nat j) (seq 0 n).
Proof.
  induction n as [|n IH]; intros i ret_val st.
  - exists [], st. simpl. now rewrite app_nil_r.
  - cbn [close_all_loop bind call exec_shell local_call].
    destruct (is_open (sh_fds st) i && negb (close_fails w Shell i)).
    + cbn [Z.eqb Pos.eqb bind].
      destruct (IH (i + 1) ret_val (log (SClose i, 0) (release i (sh_fds st)) st))
        as (tr & st' & He & Ht & Hc).
      exists ((SClose i, 0) :: tr), st'. rewrite He. split; [|split].
      * reflexivity.
      * rewrite Ht. simpl. now rewrite <- app_assoc.
      * simpl. rewrite Hc, <- seq_shift, map_map. f_equal; [lia|].
        apply map_ext. intros; lia.
    + cbn [Z.eqb Pos.eqb bind perror call exec_shell local_call].
      set (st1 := log _ _ (log _ _ st)).
      destruct (IH (i + 1) 1 st1) as (tr & st' & He & Ht & Hc).
      exists ((SClose i, -1) :: (SPerror "close", 0) :: tr), st'.
      rewrite He. split; [|split].
      * simpl. now destruct (existsb failed tr).
      * rewrite Ht. subst st1. simpl. now rewrite <- !app_assoc.
      * simpl. rewrite Hc, <- seq_shift, map_map. f_equal; [lia|].
        apply map_ext. intros; lia.
Qed.

(** C10. For a descriptor array of length [n], [close_all] calls [close]
    on each of the slots 0, ..., n-1 in order, whatever the earlier
    calls returned, and returns 1 when one of its calls failed and 0
    otherwise. *)
Theorem close_all_closes_every_descriptor (w : world) (st : shell) (n : Z) :
  exists (tr : list event) (st' : shell),
    exec_shell w (close_all n) st
      = (st', Returned (if existsb failed tr then 1 else 0)) /\
    sh_trace st' = sh_trace st ++ tr /\
    closes tr = map Z.of_nat (seq 0 (Z.to_nat n)).
Proof.
  destruct (close_all_loop_spec w (Z.to_nat n) 0 0 st) as (tr & st' & H).
  exists tr, st'. exact H.
Qed.

(** ** The spawn loop, while nothing fails in the shell *)

(* Settle the integer tests that linear arithmetic decides. *)
Ltac decide_eqb :=
  repeat match goal with
  | |- context [Z.eqb ?a ?b] =>
      first [ rewrite (proj2 (Z.eqb_eq a b)) by lia
            | rewrite (proj2 (Z.eqb_neq a b)) by lia ]
  end.

Lemma range_succ (i : Z) (n : nat) : range i (S n) = i :: range (i + 1) n.
Proof.
  unfold range. simpl. rewrite <- seq_shift, map_map. f_equal; [lia|].
  apply map_ext. intros; lia.
Qed.

Lemma shell_calm_succ (w : world) (i : Z) (n : nat) :
  shell_calm w i (S n) = shell_calm_at w i && shell_calm w (i + 1) n.
Proof. unfold shell_calm. now rewrite range_succ. Qed.

(** *** One call of the shell *)

Section ShellCalls.

Variable w : world.

Lemma shell_pipe_ok (idx : Z) (k : Z -> prog Z) (st : shell) :
  pipe_fails w idx = false ->
  exec_shell w (Sys (SPipe idx) k) st
  = exec_shell w (k 0) (log (SPipe idx, 0) (allocate idx (sh_fds st)) st).
Proof. intros H. cbn [exec_shell local_call]. now rewrite H. Qed.

Lemma shell_pipe_fails (idx : Z) (k : Z -> prog Z) (st : shell) :
  pipe_fails w idx = true ->
  exec_shell w (Sys (SPipe idx) k) st
  = exec_shell w (k (-1)) (log (SPipe idx, -1) (sh_fds st) st).
Proof. intros H. cbn [exec_shell local_call]. now rewrite H. Qed.

Lemma shell_close_ok (idx : Z) (k : Z -> prog Z) (st : shell) :
  is_open (sh_fds st) idx = true ->
  close_fails w Shell idx = false ->
  exec_shell w (Sys (SClose idx) k) st
  = exec_shell w (k 0) (log (SClose idx, 0) (release idx (sh_fds st)) st).
Proof. intros H1 H2. cbn [exec_shell local_call]. now rewrite H1, H2. Qed.

Lemma shell_close_fails (idx : Z) (k : Z -> prog Z) (st : shell) :
  is_open (sh_fds st) idx && negb (close_fails w Shell idx) = false ->
  exec_shell w (Sys (SClose idx) k) st
  = exec_shell w (k (-1)) (log (SClose idx, -1) (sh_fds st) st).
Proof. intros H. cbn [exec_shell local_call]. now rewrite H. Qed.

Lemma shell_fork_ok (k : Z -> prog Z) (st : shell) :
  fork_fails w (List.length (sh_children st)) = false ->
  exec_shell w (Sys SFork k) st
  = exec_shell w (k (Z.of_nat (S (List.length (sh_children st)))))
      (add_child (spawn w (Child (List.length (sh_children st))) (k 0) (sh_fds st))
         (log (SFork, Z.of_nat (S (List.length (sh_children st)))) (sh_fds st) st)).
Proof. intros H. cbn [exec_shell]. now rewrite H. Qed.

Lemma shell_fork_fails (k : Z -> prog Z) (st : shell) :
  fork_fails w (List.length (sh_children st)) = true ->
  exec_shell w (Sys SFork k) st
  = exec_shell w (k (-1)) (log (SFork, -1) (sh_fds st) st).
Proof. intros H. cbn [exec_shell]. now rewrite H. Qed.

Lemma shell_wait_ok (k : Z -> prog Z) (st : shell) :
  (sh_waits st < List.length (sh_children st))%nat ->
  wait_fails w (sh_waits st) = false ->
  exec_shell w (Sys SWait k) st
  = exec_shell w (k (Z.of_nat (S (sh_waits st))))
      (reaped (log (SWait, Z.of_nat (S (sh_waits st))) (sh_fds st) st)).
Proof.
  intros H1 H2. cbn [exec_shell]. rewrite H2.
  now destruct (Nat.ltb_spec (sh_waits st) (List.length (sh_children st))); [|lia].
Qed.

(** Every error path of the shell ends the same way: a message, the
    release of the array of vectors, and the value 1. *)
Lemma shell_bail (msg : string) (st : shell) :
  exec_shell w (perror msg (free (Ret 1))) st
  = (log (SFree, 0) (sh_fds st) (log (SPerror msg, 0) (sh_fds st) st),
     Returned 1).
Proof. reflexivity. Qed.

End ShellCalls.

Section SpawnLoop.

Variable w : world.
Variable sliced : list strvec.
Variables np nc : Z.

(* Reduce the code around the call just made and settle its tests. *)
Ltac shell_step :=
  cbn [bind call negb sh_fds sh_children sh_trace sh_waits
       log add_child reaped];
  decide_eqb;
  cbn [bind call negb].

(* Compute a descriptor table whose slots are known. *)
Ltac fds_eq :=
  cbn [sh_fds log add_child reaped];
  match goal with
  | H : sh_fds _ = _ |- _ => rewrite ?H
  | _ => idtac
  end;
  unfold shell_fds, fork_fds, allocate, release, is_open;
  repeat (progress (cbn [open std_in std_out app existsb filter negb orb];
                    decide_eqb)).

Ltac fds_done := fds_eq; try reflexivity; try (f_equal; f_equal; lia).

(* Side conditions on what the world decides. *)
Ltac side :=
  cbn [sh_fds sh_children sh_trace sh_waits log add_child reaped];
  match goal with
  | H : List.length _ = _ |- _ => rewrite ?H
  | _ => idtac
  end; assumption.

(* The state after the iteration, conjunct by conjunct: the trace is
   settled before the facts about it. *)
Ltac fin :=
  cbn [sh_fds sh_children sh_waits sh_trace log add_child];
  split; [| split; [| split; [reflexivity | split;
    [rewrite <- ?app_assoc; reflexivity | split;
      [cbn [closes app]; try reflexivity
      |split; [cbn [existsb failed app orb]; decide_eqb; try reflexivity
              |reflexivity]]]]]].

(** One iteration that goes well: the process is created, and the shell
    closes the previous read end and the new write end. *)
Lemma spawn_body_ok (i : Z) (next : prog Z) (st : shell) :
  0 <= i < nc ->
  shell_calm_at w i = true ->
  sh_fds st = shell_fds nc i ->
  Z.of_nat (List.length (sh_children st)) = i ->
  exists (st' : shell) (tr : list event),
    exec_shell w (spawn_body sliced np nc i next) st = exec_shell w next st' /\
    sh_fds st' = shell_fds nc (i + 1) /\
    sh_children st' = sh_children st ++ [child_at w sliced np nc i] /\
    sh_waits st' = sh_waits st /\
    sh_trace st' = sh_trace st ++ tr /\
    closes tr = shell_closes nc i /\
    existsb failed tr = false /\
    wait_calls tr = 0%nat.
Proof.
  intros Hi Hcalm Hfds Hlen.
  unfold shell_calm_at in Hcalm.
  apply andb_true_iff in Hcalm as [Hcalm Hc2].
  apply andb_true_iff in Hcalm as [Hcalm Hc1].
  apply andb_true_iff in Hcalm as [Hp Hf].
  apply negb_true_iff in Hp, Hf, Hc1, Hc2.
  assert (Hn : List.length (sh_children st) = Z.to_nat i) by lia.
  unfold spawn_body, child_at, shell_closes.
  destruct (Z.eqb_spec i 0) as [E0|E0]; destruct (Z.eqb_spec i (nc - 1)) as [E1|E1];
    shell_step.
  - rewrite shell_fork_ok by side.
    shell_step.
    eexists; eexists; split; [reflexivity|]. fin.
    + fds_done.
    + rewrite Hn. fds_done.
  - rewrite shell_pipe_ok by side. shell_step.
    rewrite shell_fork_ok by side. shell_step.
    rewrite shell_close_ok; [| fds_done | side ].
    shell_step.
    eexists; eexists; split; [reflexivity|]. fin.
    + fds_done.
    + rewrite Hn. fds_done.
  - rewrite shell_fork_ok by side. shell_step.
    rewrite shell_close_ok; [| fds_done | side ].
    shell_step.
    eexists; eexists; split; [reflexivity|]. fin.
    + fds_done.
    + rewrite Hn. fds_done.
  - rewrite shell_pipe_ok by side. shell_step.
    rewrite shell_fork_ok by side. shell_step.
    rewrite shell_close_ok; [| fds_done | side ].
    shell_step.
    rewrite shell_close_ok; [| fds_done | side ].
    shell_step.
    eexists; eexists; split; [reflexivity|]. fin.
    + fds_done.
    + rewrite Hn. fds_done.
Qed.

(** [j] iterations that go well, out of a loop with [j + n] left. *)
Lemma spawn_loop_ok (j : nat) :
  forall (n : nat) (i : Z) (after : prog Z) (st : shell),
  0 <= i -> i + Z.of_nat j <= nc ->
  shell_calm w i j = true ->
  sh_fds st = shell_fds nc i ->
  Z.of_nat (List.length (sh_children st)) = i ->
  exists (st' : shell) (tr : list event),
    exec_shell w (for_loop (j + n) i (spawn_body sliced np nc) after) st
    = exec_shell w
        (for_loop n (i + Z.of_nat j) (spawn_body sliced np nc) after) st' /\
    sh_fds st' = shell_fds nc (i + Z.of_nat j) /\
    sh_children st'
    = sh_children st ++ map (child_at w sliced np nc) (range i j) /\
    sh_waits st' = sh_waits st /\
    sh_trace st' = sh_trace st ++ tr /\
    closes tr = flat_map (shell_closes nc) (range i j) /\
    existsb failed tr = false /\
    wait_calls tr = 0%nat.
Proof.
  induction j as [|j IH]; intros n i after st Hi Hj Hcalm Hfds Hlen.
  - exists st, []. rewrite Z.add_0_r, !app_nil_r. now repeat split.
  - rewrite shell_calm_succ in Hcalm. apply andb_true_iff in Hcalm as [Hc Hcalm].
    cbn [Nat.add for_loop].
    destruct (spawn_body_ok i (for_loop (j + n) (i + 1) (spawn_body sliced np nc) after)
                st ltac:(lia) Hc Hfds Hlen)
      as (st1 & tr1 & He1 & Hf1 & Hch1 & Hw1 & Ht1 & Hcl1 & Hfl1 & Hwc1).
    destruct (IH n (i + 1) after st1 ltac:(lia) ltac:(lia) Hcalm Hf1)
      as (st2 & tr2 & He2 & Hf2 & Hch2 & Hw2 & Ht2 & Hcl2 & Hfl2 & Hwc2).
    { rewrite Hch1, length_app. simpl. lia. }
    exists st2, (tr1 ++ tr2).
    replace (i + Z.of_nat (S j)) with (i + 1 + Z.of_nat j) by lia.
    rewrite He1, He2, range_succ. cbn [map flat_map].
    split; [reflexivity|]. split; [exact Hf2|]. split.
    { rewrite Hch2, Hch1, <- app_assoc. reflexivity. }
    split; [congruence|]. split.
    { rewrite Ht2, Ht1, <- app_assoc. reflexivity. }
    split.
    { rewrite closes_app, Hcl1, Hcl2. reflexivity. }
    split; [rewrite existsb_app, Hfl1, Hfl2; reflexivity|].
    rewrite wait_calls_app, Hwc1, Hwc2. reflexivity.
Qed.

(** The wait loop, while [wait] does not fail. *)
Lemma wait_loop_ok (n : nat) :
  forall (i : Z) (after : prog Z) (st : shell),
  (sh_waits st + n <= List.length (sh_children st))%nat ->
  (forall t, (sh_waits st <= t < sh_waits st + n)%nat -> wait_fails w t = false) ->
  exists (st' : shell) (tr : list event),
    exec_shell w (for_loop n i wait_body after) st = exec_shell w after st' /\
    sh_fds st' = sh_fds st /\
    sh_children st' = sh_children st /\
    sh_waits st' = (sh_waits st + n)%nat /\
    sh_trace st' = sh_trace st ++ tr /\
    closes tr = [] /\
    existsb failed tr = false /\
    wait_calls tr = n.
Proof.
  induction n as [|n IH]; intros i after st Hle Hw.
  - exists st, []. rewrite Nat.add_0_r, app_nil_r. now repeat split.
  - cbn [for_loop]. unfold wait_body at 1. cbn [bind call].
    rewrite shell_wait_ok by (try apply Hw; lia).
    shell_step.
    set (st1 := reaped (log _ _ st)).
    destruct (IH (i + 1) after st1)
      as (st2 & tr2 & He & Hf & Hch & Hws & Ht & Hcl & Hfl & Hwc).
    { subst st1. cbn. lia. }
    { subst st1. cbn [sh_waits reaped log]. intros t Ht. apply Hw. lia. }
    exists st2, ((SWait, Z.of_nat (S (sh_waits st))) :: tr2).
    rewrite He. subst st1. cbn [sh_fds sh_children sh_waits sh_trace reaped log] in *.
    split; [reflexivity|]. split; [exact Hf|]. split; [exact Hch|].
    split; [lia|]. split; [rewrite Ht, <- app_assoc; reflexivity|].
    split; [exact Hcl|].
    cbn [existsb failed wait_calls]. rewrite Hfl, Hwc.
    now destruct (Z.eqb_spec (Z.of_nat (S (sh_waits st))) (-1)); [lia|].
Qed.

(** *** An iteration in which a call of the shell fails *)

Ltac bailed :=
  eexists; eexists; split; [reflexivity|];
  cbn [sh_fds sh_children sh_waits sh_trace log add_child];
  repeat match goal with |- _ /\ _ => split end;
  first [reflexivity | rewrite <- !app_assoc; reflexivity].

(** [pipe] fails: the function returns 1 at once. *)
Lemma spawn_body_pipe_fails (i : Z) (next : prog Z) (st : shell) :
  i <> nc - 1 ->
  pipe_fails w (2 * i) = true ->
  exists (st' : shell) (tr : list event),
    exec_shell w (spawn_body sliced np nc i next) st = (st', Returned 1) /\
    sh_fds st' = sh_fds st /\
    sh_children st' = sh_children st /\
    sh_waits st' = sh_waits st /\
    sh_trace st' = sh_trace st ++ tr /\
    closes tr = [] /\
    wait_calls tr = 0%nat.
Proof.
  intros Hi Hp. unfold spawn_body. shell_step.
  rewrite shell_pipe_fails by assumption. shell_step.
  rewrite shell_bail. bailed.
Qed.

(** [fork] fails: the shell tries to close the slots 2i and 2i+1 and
    returns 1, whatever those calls return. *)
Lemma spawn_body_fork_fails (i : Z) (next : prog Z) (st : shell) :
  i = nc - 1 \/ pipe_fails w (2 * i) = false ->
  fork_fails w (List.length (sh_children st)) = true ->
  exists (st' : shell) (tr : list event),
    exec_shell w (spawn_body sliced np nc i next) st = (st', Returned 1) /\
    sh_children st' = sh_children st /\
    sh_waits st' = sh_waits st /\
    sh_trace st' = sh_trace st ++ tr /\
    wait_calls tr = 0%nat.
Proof.
  intros Hp Hf. unfold spawn_body.
  destruct (Z.eqb_spec i (nc - 1)) as [E1|E1]; shell_step.
  - rewrite shell_fork_fails by assumption. shell_step.
    cbn [exec_shell local_call].
    destruct (is_open _ _ && _); shell_step.
    + cbn [exec_shell local_call].
      destruct (is_open _ _ && _); shell_step; rewrite shell_bail; bailed.
    + rewrite shell_bail. bailed.
  - destruct Hp as [Hp|Hp]; [contradiction|].
    rewrite shell_pipe_ok by assumption. shell_step.
    rewrite shell_fork_fails by assumption. shell_step.
    cbn [exec_shell local_call].
    destruct (is_open _ _ && _); shell_step.
    + cbn [exec_shell local_call].
      destruct (is_open _ _ && _); shell_step; rewrite shell_bail; bailed.
    + rewrite shell_bail. bailed.
Qed.

(** A [close] of the shell fails after the process was created: the
    function returns 1 at once. *)
Lemma spawn_body_close_fails (i : Z) (next : prog Z) (st : shell) :
  0 <= i < nc ->
  pipe_fails w (2 * i) = false ->
  fork_fails w (Z.to_nat i) = false ->
  shell_close_fails_at w nc i = true ->
  sh_fds st = shell_fds nc i ->
  Z.of_nat (List.length (sh_children st)) = i ->
  exists (st' : shell) (tr : list event),
    exec_shell w (spawn_body sliced np nc i next) st = (st', Returned 1) /\
    sh_children st' = sh_children st ++ [child_at w sliced np nc i] /\
    sh_waits st' = sh_waits st /\
    sh_trace st' = sh_trace st ++ tr /\
    wait_calls tr = 0%nat.
Proof.
  intros Hi Hp Hf Hc Hfds Hlen.
  assert (Hn : List.length (sh_children st) = Z.to_nat i) by lia.
  unfold shell_close_fails_at in Hc.
  unfold spawn_body, child_at.
  destruct (Z.eqb_spec i 0) as [E0|E0]; destruct (Z.eqb_spec i (nc - 1)) as [E1|E1];
    cbn [negb andb orb] in Hc; try discriminate; shell_step.
  - rewrite shell_pipe_ok by side. shell_step.
    rewrite shell_fork_ok by side. shell_step.
    rewrite shell_close_fails by (cbn [sh_fds log add_child]; rewrite Hc; apply andb_false_r).
    shell_step. rewrite shell_bail.
    eexists; eexists; split; [reflexivity|].
    cbn [sh_fds sh_children sh_waits sh_trace log add_child].
    split; [rewrite Hn; fds_done|]. split; [reflexivity|].
    split; [rewrite <- !app_assoc; reflexivity|reflexivity].
  - rewrite orb_false_r in Hc.
    rewrite shell_fork_ok by side. shell_step.
    rewrite shell_close_fails by (cbn [sh_fds log add_child]; rewrite Hc; apply andb_false_r).
    shell_step. rewrite shell_bail.
    eexists; eexists; split; [reflexivity|].
    cbn [sh_fds sh_children sh_waits sh_trace log add_child].
    split; [rewrite Hn; fds_done|]. split; [reflexivity|].
    split; [rewrite <- !app_assoc; reflexivity|reflexivity].
  - rewrite shell_pipe_ok by side. shell_step.
    rewrite shell_fork_ok by side. shell_step.
    destruct (close_fails w Shell (2 * i - 2)) eqn:Hc1.
    + rewrite shell_close_fails by (cbn [sh_fds log add_child]; rewrite Hc1; apply andb_false_r).
      shell_step. rewrite shell_bail.
      eexists; eexists; split; [reflexivity|].
      cbn [sh_fds sh_children sh_waits sh_trace log add_child].
      split; [rewrite Hn; fds_done|]. split; [reflexivity|].
      split; [rewrite <- !app_assoc; reflexivity|reflexivity].
    + cbn [orb] in Hc.
      rewrite shell_close_ok; [| fds_done | side ]. shell_step.
      rewrite shell_close_fails by (cbn [sh_fds log add_child]; rewrite Hc; apply andb_false_r).
      shell_step. rewrite shell_bail.
      eexists; eexists; split; [reflexivity|].
      cbn [sh_fds sh_children sh_waits sh_trace log add_child].
      split; [rewrite Hn; fds_done|]. split; [reflexivity|].
      split; [rewrite <- !app_assoc; reflexivity|reflexivity].
Qed.

End SpawnLoop.

(** ** A whole invocation in which no call of the shell fails *)

Lemma ncommands_of_pos (tokens : strvec) : 0 < ncommands_of tokens.
Proof. unfold ncommands_of, num_pipes_of, strvec_num_occurrences. lia. Qed.

Lemma run_quiet (w : world) (tokens : strvec) :
  shell_quiet w tokens = true ->
  exists st : shell,
    run w tokens = (st, Returned 0) /\
    sh_fds st = no_fds /\
    sh_children st
    = map (command_process w tokens) (range 0 (Z.to_nat (ncommands_of tokens))) /\
    sh_waits st = Z.to_nat (ncommands_of tokens) /\
    closes (sh_trace st)
    = flat_map (shell_closes (ncommands_of tokens))
        (range 0 (Z.to_nat (ncommands_of tokens))) /\
    existsb failed (sh_trace st) = false /\
    wait_calls (sh_trace st) = Z.to_nat (ncommands_of tokens).
Proof.
  intros Hq. unfold shell_quiet in Hq.
  apply andb_true_iff in Hq as [Hq Hw]. apply andb_true_iff in Hq as [Hm Hc].
  apply negb_true_iff in Hm.
  pose proof (ncommands_of_pos tokens) as Hpos.
  unfold run, run_pipelined_commands.
  fold (num_pipes_of tokens). fold (ncommands_of tokens).
  set (nc := ncommands_of tokens) in *. set (np := num_pipes_of tokens) in *.
  rewrite segment_split_on.
  cbn [bind call exec_shell local_call]. rewrite Hm.
  cbn [Z.eqb bind].
  set (st0 := log _ _ shell_start).
  destruct (spawn_loop_ok w (split_on "|" tokens) np nc (Z.to_nat nc) 0 0
              (for_loop (Z.to_nat nc) 0 wait_body (free (Ret 0))) st0)
    as (st1 & tr1 & He1 & Hf1 & Hch1 & Hw1 & Ht1 & Hcl1 & Hfl1 & Hwc1);
    try (subst st0; cbn; lia); try assumption.
  { subst st0. unfold shell_fds. reflexivity. }
  rewrite Nat.add_0_r in He1. rewrite He1. cbn [for_loop].
  destruct (wait_loop_ok w (Z.to_nat nc) 0 (free (Ret 0)) st1)
    as (st2 & tr2 & He2 & Hf2 & Hch2 & Hw2 & Ht2 & Hcl2 & Hfl2 & Hwc2).
  { rewrite Hw1, Hch1. subst st0. cbn [sh_waits sh_children log shell_start].
    rewrite length_app, length_map. unfold range. rewrite length_map, length_seq.
    simpl. lia. }
  { intros t Ht. rewrite forallb_forall in Hw.
    apply negb_true_iff. apply Hw. apply in_seq. rewrite Hw1 in Ht.
    subst st0. cbn [sh_waits log shell_start] in Ht. lia. }
  rewrite He2. unfold free. cbn [bind call exec_shell local_call].
  eexists. split; [reflexivity|].
  cbn [sh_fds sh_children sh_waits sh_trace log].
  subst st0. cbn [sh_fds sh_children sh_waits sh_trace log shell_start] in *.
  split.
  { rewrite Hf2, Hf1. unfold shell_fds, no_fds.
    replace (0 + Z.of_nat (Z.to_nat nc)) with nc by lia.
    now rewrite Z.eqb_refl, orb_true_r. }
  split; [now rewrite Hch2, Hch1|].
  split; [rewrite Hw2, Hw1; reflexivity|].
  rewrite Ht2, Ht1. cbn [app]. split; [|split].
  - cbn [closes]. rewrite !closes_app, Hcl1, Hcl2. cbn [closes].
    now rewrite !app_nil_r.
  - cbn [existsb failed]. rewrite !existsb_app, Hfl1, Hfl2. reflexivity.
  - cbn [wait_calls]. rewrite !wait_calls_app, Hwc1, Hwc2. cbn [wait_calls]. lia.
Qed.

(** ** The spawned processes when nothing fails *)

Ltac child_step :=
  repeat (progress (cbn [exec_child bind call free perror fprintf local_call
                         runner close_fails dup2_fails calm negb andb orb
                         is_open existsb open std_in std_out release redirect
                         filter app];
                    decide_eqb)).

Lemma calm_child (status : strvec -> Z) (sliced : list strvec) (np nc i : Z) :
  2 <= nc -> 0 <= i < nc ->
  child_at (calm status) sliced np nc i
  = {| inherited := open (fork_fds nc i);
       c_trace := calm_child_trace nc i;
       c_fds := {| open := [];
                   std_in := if i =? 0 then None else Some (2 * i - 2);
                   std_out := if i =? nc - 1 then None else Some (2 * i + 1) |};
       c_end := Execed (nth (Z.to_nat i) sliced []) |}.
Proof.
  intros Hnc Hi.
  unfold child_at, spawn, child_branch, run_piped_command, calm_child_trace,
    fork_fds, STDIN_FILENO, STDOUT_FILENO.
  destruct (Z.eqb_spec i 0) as [E0|E0]; [|destruct (Z.eqb_spec i (nc - 1)) as [E1|E1]].
  - subst i. child_step. reflexivity.
  - rewrite <- E1. child_step. unfold release, redirect. child_step. reflexivity.
  - child_step. unfold release, redirect. child_step. reflexivity.
Qed.

(** ** Counting the closes *)

Lemma count_flat_map_range (f : Z -> list Z) (s c : Z) (j : nat) :
  forall i : Z,
  (forall t, i <= t < i + Z.of_nat j ->
             count_occ Z.eq_dec (f t) s = if t =? c then 1%nat else 0%nat) ->
  count_occ Z.eq_dec (flat_map f (range i j)) s
  = if (i <=? c) && (c <? i + Z.of_nat j) then 1%nat else 0%nat.
Proof.
  induction j as [|j IH]; intros i H.
  - cbn. destruct (Z.leb_spec i c), (Z.ltb_spec c (i + 0)); reflexivity || lia.
  - rewrite range_succ. cbn [flat_map]. rewrite count_occ_app, IH, H by (intros; apply H || idtac; lia).
    destruct (Z.eqb_spec i c), (Z.leb_spec i c), (Z.leb_spec (i + 1) c),
      (Z.ltb_spec c (i + 1 + Z.of_nat j)), (Z.ltb_spec c (i + Z.of_nat (S j)));
      cbn; reflexivity || lia.
Qed.

Lemma shell_closes_count (nc s t : Z) :
  0 <= t < nc ->
  count_occ Z.eq_dec (shell_closes nc t) s
  = if t =? closer nc s then 1%nat else 0%nat.
Proof.
  intros Ht. unfold shell_closes, closer.
  pose proof (Z.div_mod s 2 ltac:(lia)) as Hdm.
  pose proof (Z.mod_pos_bound s 2 ltac:(lia)) as Hmb.
  destruct (Z.eqb_spec t 0), (Z.eqb_spec t (nc - 1)); cbn [app count_occ];
    repeat match goal with
    | |- context [Z.eq_dec ?a ?b] => destruct (Z.eq_dec a b)
    end;
    destruct (Z.leb_spec 0 s), (Z.ltb_spec s (2 * (nc - 1))); cbn [andb];
    destruct (Z.eqb_spec (s mod 2) 0);
    repeat match goal with
    | |- context [Z.eqb ?a ?b] => destruct (Z.eqb_spec a b)
    end; reflexivity || lia.
Qed.

Lemma calm_child_closes (nc i s : Z) :
  2 <= nc -> 0 <= i < nc ->
  count_occ Z.eq_dec (closes (calm_child_trace nc i)) s
  = if existsb (Z.eqb s) (open (fork_fds nc i)) then 1%nat else 0%nat.
Proof.
  intros Hnc Hi. unfold calm_child_trace, fork_fds.
  destruct (Z.eqb_spec i 0), (Z.eqb_spec i (nc - 1));
    cbn [closes count_occ open app existsb orb]; try lia;
    repeat match goal with
    | |- context [Z.eq_dec ?a ?b] => destruct (Z.eq_dec a b)
    end;
    repeat match goal with
    | |- context [Z.eqb ?a ?b] => destruct (Z.eqb_spec a b)
    end; cbn [orb]; reflexivity || lia.
Qed.

Lemma calm_child_no_failure (nc i : Z) :
  existsb failed (calm_child_trace nc i) = false.
Proof.
  unfold calm_child_trace. destruct (i =? 0), (i =? nc - 1); reflexivity.
Qed.

Lemma calm_is_quiet (status : strvec -> Z) (tokens : strvec) :
  shell_quiet (calm status) tokens = true.
Proof.
  unfold shell_quiet. cbn [malloc_fails calm negb andb].
  apply andb_true_iff; split; apply forallb_forall; intros; reflexivity.
Qed.

Lemma nth_error_range (i : Z) (n t : nat) :
  (t < n)%nat -> nth_error (range i n) t = Some (i + Z.of_nat t).
Proof.
  intros H. unfold range. rewrite nth_error_map, nth_error_nth' with (d := 0%nat)
    by (rewrite length_seq; lia).
  rewrite seq_nth by lia. reflexivity.
Qed.

Lemma in_range (i : Z) (n : nat) (t : Z) :
  In t (range i n) <-> i <= t < i + Z.of_nat n.
Proof.
  unfold range. rewrite in_map_iff. split.
  - intros (x & <- & Hx). apply in_seq in Hx. lia.
  - intros H. exists (Z.to_nat (t - i)). split; [lia|]. apply in_seq. lia.
Qed.

(** ** The claims about an invocation without failure *)

(** C1. In a pipeline of N >= 2 commands in which no call fails, the
    shell closes each of the 2(N-1) endpoints exactly once and nothing
    else, no endpoint is open in the shell afterwards, and every
    spawned process closes exactly once each endpoint it was created
    with, and no other slot, before the command replaces it. *)
Theorem every_endpoint_closed_once_per_holder
    (status : strvec -> Z) (tokens : strvec) :
  2 <= ncommands_of tokens ->
  exists st : shell,
    run (calm status) tokens = (st, Returned 0) /\
    existsb failed (sh_trace st) = false /\
    (forall s : Z,
        count_occ Z.eq_dec (closes (sh_trace st)) s
        = if (0 <=? s) && (s <? 2 * num_pipes_of tokens) then 1%nat else 0%nat) /\
    open (sh_fds st) = [] /\
    List.length (sh_children st) = Z.to_nat (ncommands_of tokens) /\
    forall c : child, In c (sh_children st) ->
      existsb failed (c_trace c) = false /\
      (forall s : Z,
          count_occ Z.eq_dec (closes (c_trace c)) s
          = if existsb (Z.eqb s) (inherited c) then 1%nat else 0%nat) /\
      open (c_fds c) = [] /\
      exists t : strvec, c_end c = Execed t.
Proof.
  intros Hnc.
  destruct (run_quiet (calm status) tokens (calm_is_quiet status tokens))
    as (st & Hrun & Hfds & Hch & Hw & Hcl & Hfl & Hwc).
  exists st. split; [exact Hrun|]. split; [exact Hfl|]. split; [|split; [|split]].
  - intros s. rewrite Hcl.
    rewrite (count_flat_map_range (shell_closes (ncommands_of tokens)) s
               (closer (ncommands_of tokens) s)).
    + unfold closer, ncommands_of in *.
      pose proof (Z.div_mod s 2 ltac:(lia)) as Hdm.
      pose proof (Z.mod_pos_bound s 2 ltac:(lia)) as Hmb.
      replace (num_pipes_of tokens + 1 - 1) with (num_pipes_of tokens) by lia.
      destruct (Z.leb_spec 0 s), (Z.ltb_spec s (2 * num_pipes_of tokens));
        cbn [andb]; [destruct (Z.eqb_spec (s mod 2) 0)| | |];
        repeat match goal with
        | |- context [Z.leb ?a ?b] => destruct (Z.leb_spec a b)
        | |- context [Z.ltb ?a ?b] => destruct (Z.ltb_spec a b)
        end; cbn [andb]; reflexivity || lia.
    + intros t Ht. apply shell_closes_count. lia.
  - now rewrite Hfds.
  - rewrite Hch, length_map. unfold range. now rewrite length_map, length_seq.
  - intros c Hin. rewrite Hch in Hin. apply in_map_iff in Hin as (i & <- & Hi).
    apply in_range in Hi.
    unfold command_process. rewrite calm_child by lia.
    cbn [c_trace inherited c_fds c_end open].
    split; [apply calm_child_no_failure|]. split; [|split; [reflexivity|eauto]].
    intros s. apply calm_child_closes; lia.
Qed.

(** C8. In a pipeline of N >= 2 commands in which no call fails, the
    i-th process duplicates slot 2i-2 (the read end of channel i-1) onto
    its standard input when i > 0 and slot 2i+1 (the write end of
    channel i) onto its standard output when i < N-1, makes no other
    [dup2] call, and then runs the i-th segment. *)
Theorem redirections_follow_channel_indices
    (status : strvec -> Z) (tokens : strvec) (i : Z) :
  2 <= ncommands_of tokens ->
  0 <= i < ncommands_of tokens ->
  exists (st : shell) (c : child),
    run (calm status) tokens = (st, Returned 0) /\
    nth_error (sh_children st) (Z.to_nat i) = Some c /\
    dups (c_trace c)
    = (if i =? 0 then [] else [(2 * i - 2, STDIN_FILENO)])
      ++ (if i =? ncommands_of tokens - 1 then []
          else [(2 * i + 1, STDOUT_FILENO)]) /\
    std_in (c_fds c) = (if i =? 0 then None else Some (2 * i - 2)) /\
    std_out (c_fds c)
    = (if i =? ncommands_of tokens - 1 then None else Some (2 * i + 1)) /\
    c_end c = Execed (nth (Z.to_nat i) (split_on "|" tokens) []).
Proof.
  intros Hnc Hi.
  destruct (run_quiet (calm status) tokens (calm_is_quiet status tokens))
    as (st & Hrun & Hfds & Hch & Hw & Hcl & Hfl & Hwc).
  exists st, (command_process (calm status) tokens i).
  split; [exact Hrun|]. split.
  { rewrite Hch, nth_error_map, nth_error_range by lia.
    cbn [option_map]. do 2 f_equal. lia. }
  unfold command_process. rewrite calm_child by lia.
  cbn [c_trace c_fds c_end std_in std_out]. unfold calm_child_trace.
  destruct (Z.eqb_spec i 0) as [->|E0];
    [|destruct (Z.eqb_spec i (ncommands_of tokens - 1))];
    decide_eqb; repeat split; reflexivity.
Qed.

(** ** Invocations in which a call of the shell fails *)

(** The first [j] iterations go well; iteration [j] is about to run. *)
Lemma run_prefix (w : world) (tokens : strvec) (j : nat) :
  malloc_fails w = false ->
  shell_calm w 0 j = true ->
  (j < Z.to_nat (ncommands_of tokens))%nat ->
  exists (st : shell) (tr : list event),
    run w tokens
    = exec_shell w
        (spawn_body (split_on "|" tokens) (num_pipes_of tokens)
           (ncommands_of tokens) (Z.of_nat j)
           (for_loop (Z.to_nat (ncommands_of tokens) - S j) (Z.of_nat j + 1)
              (spawn_body (split_on "|" tokens) (num_pipes_of tokens)
                 (ncommands_of tokens))
              (reap_all tokens))) st /\
    sh_fds st = shell_fds (ncommands_of tokens) (Z.of_nat j) /\
    List.length (sh_children st) = j /\
    sh_waits st = 0%nat /\
    sh_trace st = (SMalloc (ncommands_of tokens), 1) :: tr /\
    closes tr = flat_map (shell_closes (ncommands_of tokens)) (range 0 j) /\
    existsb failed tr = false /\
    wait_calls tr = 0%nat.
Proof.
  intros Hm Hc Hj.
  unfold run, run_pipelined_commands.
  fold (num_pipes_of tokens). fold (ncommands_of tokens).
  set (nc := ncommands_of tokens) in *. set (np := num_pipes_of tokens) in *.
  rewrite segment_split_on.
  cbn [bind call exec_shell local_call]. rewrite Hm.
  cbn [Z.eqb bind].
  set (st0 := log _ _ shell_start).
  destruct (spawn_loop_ok w (split_on "|" tokens) np nc j (S (Z.to_nat nc - S j)) 0
              (for_loop (Z.to_nat nc) 0 wait_body (free (Ret 0))) st0)
    as (st1 & tr1 & He1 & Hf1 & Hch1 & Hw1 & Ht1 & Hcl1 & Hfl1 & Hwc1);
    try (subst st0; cbn; lia); try assumption.
  { subst st0. unfold shell_fds. reflexivity. }
  replace (j + S (Z.to_nat nc - S j))%nat with (Z.to_nat nc) in He1 by lia.
  exists st1, tr1. rewrite He1. cbn [for_loop].
  subst st0. cbn [sh_fds sh_children sh_waits sh_trace log shell_start app] in *.
  rewrite Z.add_0_l in *.
  split; [reflexivity|]. split; [exact Hf1|]. split.
  { rewrite Hch1, length_map. unfold range. now rewrite length_map, length_seq. }
  repeat split; assumption.
Qed.

(** When no call of the shell fails, the function waits
    once for each of the N processes it created and returns 0, whatever
    the processes did: [wait(NULL)] discards their exit statuses. *)
Lemma quiet_run_counts (w : world) (tokens : strvec) :
  shell_quiet w tokens = true ->
  exists st : shell,
    run w tokens = (st, Returned 0) /\
    List.length (sh_children st) = Z.to_nat (ncommands_of tokens) /\
    wait_calls (sh_trace st) = List.length (sh_children st) /\
    sh_waits st = List.length (sh_children st).
Proof.
  intros Hq.
  destruct (run_quiet w tokens Hq) as (st & Hrun & Hfds & Hch & Hw & Hcl & Hfl & Hwc).
  assert (Hlen : List.length (sh_children st) = Z.to_nat (ncommands_of tokens)).
  { rewrite Hch, length_map. unfold range. now rewrite length_map, length_seq. }
  exists st. rewrite Hlen. repeat split; assumption.
Qed.

(** C4 (amended). When no call of the shell fails, the number of [wait]
    calls equals the number of processes created.  When [fork] fails
    for command [i], the calls before it having succeeded, the function
    returns 1 with the [i] earlier processes created, none after them,
    and no [wait] call made: the processes already created are not
    waited for. *)
Theorem fork_failure_returns_without_waiting (w : world) (tokens : strvec) :
  (shell_quiet w tokens = true ->
   exists st : shell,
     run w tokens = (st, Returned 0) /\
     wait_calls (sh_trace st) = List.length (sh_children st)) /\
  (forall i : Z,
     0 <= i < ncommands_of tokens ->
     malloc_fails w = false ->
     shell_calm w 0 (Z.to_nat i) = true ->
     i = ncommands_of tokens - 1 \/ pipe_fails w (2 * i) = false ->
     fork_fails w (Z.to_nat i) = true ->
     exists st : shell,
       run w tokens = (st, Returned 1) /\
       List.length (sh_children st) = Z.to_nat i /\
       wait_calls (sh_trace st) = 0%nat /\
       sh_waits st = 0%nat).
Proof.
  split.
  - intros Hq.
    destruct (quiet_run_counts w tokens Hq) as (st & H1 & _ & H2 & _).
    exists st. now split.
  - intros i Hi Hm Hc Hp Hf.
    destruct (run_prefix w tokens (Z.to_nat i) Hm Hc ltac:(lia))
      as (st & tr & Hrun & Hfds & Hlen & Hw & Ht & Hcl & Hfl & Hwc).
    rewrite Z2Nat.id in Hrun by lia.
    destruct (spawn_body_fork_fails w (split_on "|" tokens) (num_pipes_of tokens)
                (ncommands_of tokens) i
                (for_loop (Z.to_nat (ncommands_of tokens) - S (Z.to_nat i)) (i + 1)
                   (spawn_body (split_on "|" tokens) (num_pipes_of tokens)
                      (ncommands_of tokens)) (reap_all tokens))
                st Hp ltac:(now rewrite Hlen))
      as (st' & tr' & He & Hch' & Hw' & Ht' & Hwc').
    exists st'. rewrite Hrun, He. split; [reflexivity|].
    split; [congruence|]. split; [|congruence].
    rewrite Ht', Ht. cbn [app wait_calls]. rewrite wait_calls_app. lia.
Qed.

(** C5 (amended). When no call of the shell fails, the function waits
    once for each of the N processes it created and returns 0, whatever
    the exit statuses of the processes are: [wait(NULL)] discards them,
    and a command that exits with a non-zero status is not reported. *)
Theorem exit_statuses_are_discarded (w : world) (tokens : strvec) :
  shell_quiet w tokens = true ->
  exists st : shell,
    run w tokens = (st, Returned 0) /\
    List.length (sh_children st) = Z.to_nat (ncommands_of tokens) /\
    wait_calls (sh_trace st) = List.length (sh_children st) /\
    sh_waits st = List.length (sh_children st).
Proof. apply quiet_run_counts. Qed.

(** C7 (amended). When the allocation of channel [i >= 1] fails, the
    calls before it having succeeded, the function returns 1 at once:
    the [i] commands before it have been spawned and are not waited
    for, no further command is spawned, and of the endpoints of the
    channels allocated so far every one but the read end of channel
    [i-1] has been closed once by the shell. *)
Theorem pipe_failure_returns_after_spawning
    (w : world) (tokens : strvec) (i : Z) :
  1 <= i < ncommands_of tokens - 1 ->
  malloc_fails w = false ->
  shell_calm w 0 (Z.to_nat i) = true ->
  pipe_fails w (2 * i) = true ->
  exists st : shell,
    run w tokens = (st, Returned 1) /\
    List.length (sh_children st) = Z.to_nat i /\
    wait_calls (sh_trace st) = 0%nat /\
    forall s : Z, s <> 2 * i - 2 ->
      count_occ Z.eq_dec (closes (sh_trace st)) s
      = if (0 <=? s) && (s <? 2 * i) then 1%nat else 0%nat.
Proof.
  intros Hi Hm Hc Hp.
  destruct (run_prefix w tokens (Z.to_nat i) Hm Hc ltac:(lia))
    as (st & tr & Hrun & Hfds & Hlen & Hw & Ht & Hcl & Hfl & Hwc).
  rewrite Z2Nat.id in Hrun by lia.
  destruct (spawn_body_pipe_fails w (split_on "|" tokens) (num_pipes_of tokens)
              (ncommands_of tokens) i
              (for_loop (Z.to_nat (ncommands_of tokens) - S (Z.to_nat i)) (i + 1)
                 (spawn_body (split_on "|" tokens) (num_pipes_of tokens)
                    (ncommands_of tokens)) (reap_all tokens))
              st ltac:(lia) Hp)
    as (st' & tr' & He & Hf' & Hch' & Hw' & Ht' & Hcl' & Hwc').
  exists st'. rewrite Hrun, He. split; [reflexivity|].
  split; [congruence|]. rewrite Ht', Ht. cbn [app wait_calls closes].
  rewrite wait_calls_app, closes_app, Hcl', Hcl, app_nil_r. split; [lia|].
  intros s Hs.
  rewrite (count_flat_map_range (shell_closes (ncommands_of tokens)) s
             (closer (ncommands_of tokens) s))
    by (intros t Ht0; apply shell_closes_count; lia).
  unfold closer.
  pose proof (Z.div_mod s 2 ltac:(lia)) as Hdm.
  pose proof (Z.mod_pos_bound s 2 ltac:(lia)) as Hmb.
  destruct (Z.leb_spec 0 s), (Z.ltb_spec s (2 * (ncommands_of tokens - 1)));
    cbn [andb]; [destruct (Z.eqb_spec (s mod 2) 0)| | |];
    repeat match goal with
    | |- context [Z.leb ?a ?b] => destruct (Z.leb_spec a b)
    | |- context [Z.ltb ?a ?b] => destruct (Z.ltb_spec a b)
    end; cbn [andb]; reflexivity || lia.
Qed.

(** C9 (amended). A [close] call of the shell that fails on a channel
    endpoint aborts the invocation: when it fails after command [i] was
    spawned, the calls before it having succeeded, the function returns
    1 at once, with the [i+1] processes created so far, no further
    command spawned and no [wait] call made. *)
Theorem shell_close_failure_aborts (w : world) (tokens : strvec) (i : Z) :
  0 <= i < ncommands_of tokens ->
  malloc_fails w = false ->
  shell_calm w 0 (Z.to_nat i) = true ->
  pipe_fails w (2 * i) = false ->
  fork_fails w (Z.to_nat i) = false ->
  shell_close_fails_at w (ncommands_of tokens) i = true ->
  exists st : shell,
    run w tokens = (st, Returned 1) /\
    List.length (sh_children st) = S (Z.to_nat i) /\
    wait_calls (sh_trace st) = 0%nat /\
    sh_waits st = 0%nat.
Proof.
  intros Hi Hm Hc Hp Hf Hcf.
  destruct (run_prefix w tokens (Z.to_nat i) Hm Hc ltac:(lia))
    as (st & tr & Hrun & Hfds & Hlen & Hw & Ht & Hcl & Hfl & Hwc).
  rewrite Z2Nat.id in Hrun, Hfds by lia.
  destruct (spawn_body_close_fails w (split_on "|" tokens) (num_pipes_of tokens)
              (ncommands_of tokens) i
              (for_loop (Z.to_nat (ncommands_of tokens) - S (Z.to_nat i)) (i + 1)
                 (spawn_body (split_on "|" tokens) (num_pipes_of tokens)
                    (ncommands_of tokens)) (reap_all tokens))
              st Hi Hp Hf Hcf Hfds ltac:(lia))
    as (st' & tr' & He & Hch' & Hw' & Ht' & Hwc').
  exists st'. rewrite Hrun, He. split; [reflexivity|].
  split; [rewrite Hch', length_app; simpl; lia|].
  split; [|congruence].
  rewrite Ht', Ht. cbn [app wait_calls]. rewrite wait_calls_app. lia.
Qed.

(** ** Concrete invocations *)

(** C5, counterexample. In ["false"; "|"; "true"] the first process
    exits with status 1 and the second with 0, both are waited for, and
    the function returns 0: the non-zero exit is not reported. *)
Lemma false_true_returns_success :
  let r := run (calm status_of) ["false"; "|"; "true"] in
  statuses (calm status_of) r = [Some 1; Some 0] /\
  sh_waits (fst r) = 2%nat /\
  snd r = Returned 0.
Proof. vm_compute. repeat split. Qed.

(** C4, counterexample. In ["a"; "|"; "b"; "|"; "c"] with the second
    [fork] failing, one process was created and no [wait] call is made;
    the shell closed the two ends of the second channel (slots 2 and
    3), and the read end of the first (slot 0) is still open when the
    function returns 1. *)
Lemma fork_failure_skips_wait :
  let r := run (fork_fails_at 1) ["a"; "|"; "b"; "|"; "c"] in
  List.length (sh_children (fst r)) = 1%nat /\
  wait_calls (sh_trace (fst r)) = 0%nat /\
  closes (sh_trace (fst r)) = [1; 2; 3] /\
  open (sh_fds (fst r)) = [0] /\
  snd r = Returned 1.
Proof. vm_compute. repeat split. Qed.

(** C7, counterexample. In ["a"; "|"; "b"; "|"; "c"] with the
    allocation of the second channel failing, the function returns 1
    with one process already created and the read end of the first
    channel (slot 0) still open in the shell. *)
Lemma pipe_failure_after_spawn :
  let r := run (pipe_fails_at 2) ["a"; "|"; "b"; "|"; "c"] in
  snd r = Returned 1 /\
  List.length (sh_children (fst r)) = 1%nat /\
  open (sh_fds (fst r)) = [0] /\
  closes (sh_trace (fst r)) = [1].
Proof. vm_compute. repeat split. Qed.

(** C9, counterexample. In ["a"; "|"; "b"; "|"; "c"] with the shell's
    [close] of the first write end failing, the function returns 1 with
    one of the three commands spawned and no [wait] call made. *)
Lemma close_failure_is_fatal :
  let r := run (shell_close_fails_on 1) ["a"; "|"; "b"; "|"; "c"] in
  snd r = Returned 1 /\
  List.length (sh_children (fst r)) = 1%nat /\
  wait_calls (sh_trace (fst r)) = 0%nat.
Proof. vm_compute. repeat split. Qed.

(** C3. In ["nosuchprogram"; "|"; "cat"], the process in which
    [run_command] returns 1 exits with status 0, and so does the
    process in which [dup2] fails: [run_piped_command] returns 1 on
    error and its callers test for -1. *)
Theorem failed_child_exits_with_status_0 :
  endings (run (runner_fails_in 0) ["nosuchprogram"; "|"; "cat"])
  = [Exited 0; Execed ["cat"]] /\
  statuses (runner_fails_in 0)
    (run (runner_fails_in 0) ["nosuchprogram"; "|"; "cat"])
  = [Some 0; Some 0] /\
  endings (run (dup2_fails_in 1) ["nosuchprogram"; "|"; "cat"])
  = [Execed ["nosuchprogram"]; Exited 0].
Proof. vm_compute. repeat split. Qed.

(** C6. For the single command ["ls"] no channel is allocated, but
    the spawned process starts with [close(pipe_fds[0])] on the empty
    array and, should that return 0, goes on with
    [dup2(pipe_fds[1], STDOUT_FILENO)]; with no descriptor in that slot
    the call fails and the process exits with status 1 without running
    the command. *)
Theorem single_command_child_closes_slot_0 :
  let r := run (calm status_of) ["ls"] in
  segment ["ls"] = SegOk [["ls"]] /\
  existsb (fun e => match fst e with SPipe _ => true | _ => false end)
    (sh_trace (fst r)) = false /\
  map c_trace (sh_children (fst r))
  = [[(SFree, 0); (SClose 0, -1); (SPerror "close", 0)]] /\
  endings r = [Exited 1] /\
  exists k k' : Z -> prog Z,
    child_branch [["ls"]] 0 1 0 = Sys SFree (fun _ => Sys (SClose 0) k) /\
    k 0 = Sys (SDup2 1 STDOUT_FILENO) k'.
Proof.
  cbv zeta. repeat split; try (vm_compute; reflexivity).
  eexists. eexists. split; reflexivity.
Qed.

(** ** What a spawned process does after a failure, in any world *)

Ltac child_cases :=
  repeat (cbn [exec_child bind call free perror fprintf local_call
               c_trace c_end app negb Z.eqb Pos.eqb];
          match goal with
          | |- context [runner ?w ?p ?t] => destruct (runner w p t) eqn:?
          | |- context [if ?b then _ else _] => destruct b eqn:?
          end).

(** Whenever [run_command] returns in a spawned process, or a [dup2]
    call fails there, the process ends with [exit(0)]. *)
Lemma child_exits_0_after_failure
    (w : world) (sliced : list strvec) (np nc i : Z) (n : nat) (fds : fdstate) :
  let c := spawn w (Child n) (child_branch sliced np nc i) fds in
  (exists t r, In (SRunCommand t, r) (c_trace c)) \/
  (exists idx fd, In (SDup2 idx fd, -1) (c_trace c)) ->
  c_end c = Exited 0.
Proof.
  unfold spawn, child_branch, run_piped_command, STDIN_FILENO, STDOUT_FILENO.
  child_cases.
  all: cbn [exec_child bind call free perror fprintf local_call
            c_trace c_end app negb Z.eqb Pos.eqb].
  all: try reflexivity.
  all: intros [(t & r & Hin) | (idx & fd & Hin)]; cbn [In] in Hin;
    exfalso; intuition congruence.
Qed.

(** A spawned process never comes back into the caller of
    [run_pipelined_commands]: it exits with status 0 or 1, or the
    command replaces it. *)
Lemma child_never_returns
    (w : world) (sliced : list strvec) (np nc i : Z) (n : nat) (fds : fdstate) :
  let c := spawn w (Child n) (child_branch sliced np nc i) fds in
  c_end c = Exited 0 \/ c_end c = Exited 1 \/ exists t, c_end c = Execed t.
Proof.
  unfold spawn, child_branch, run_piped_command, STDIN_FILENO, STDOUT_FILENO.
  child_cases.
  all: cbn [exec_child bind call free perror fprintf local_call
            c_trace c_end app negb Z.eqb Pos.eqb].
  all: eauto.
Qed.

(** ** The theorems at concrete pipelines *)

(** C1 at ["a"; "|"; "b"]. *)
Lemma every_endpoint_closed_once_witness :
  2 <= ncommands_of ["a"; "|"; "b"] /\
  exists st : shell,
    run (calm status_of) ["a"; "|"; "b"] = (st, Returned 0) /\
    open (sh_fds st) = [].
Proof.
  assert (H : 2 <= ncommands_of ["a"; "|"; "b"]) by (vm_compute; discriminate).
  split; [exact H|].
  destruct (every_endpoint_closed_once_per_holder status_of ["a"; "|"; "b"] H)
    as (st & Hrun & _ & _ & Hopen & _).
  exists st. split; assumption.
Defined.

(** C8 at the second command of ["a"; "|"; "b"]. *)
Lemma redirections_witness :
  2 <= ncommands_of ["a"; "|"; "b"] /\
  0 <= 1 < ncommands_of ["a"; "|"; "b"] /\
  exists (st : shell) (c : child),
    nth_error (sh_children st) 1 = Some c /\
    dups (c_trace c) = [(0, STDIN_FILENO)].
Proof.
  assert (H : 2 <= ncommands_of ["a"; "|"; "b"]) by (vm_compute; discriminate).
  assert (H1 : 0 <= 1 < ncommands_of ["a"; "|"; "b"])
    by (vm_compute; split; [discriminate|reflexivity]).
  split; [exact H|]. split; [exact H1|].
  destruct (redirections_follow_channel_indices status_of ["a"; "|"; "b"] 1 H H1)
    as (st & c & _ & Hn & Hd & _).
  exists st, c. split; assumption.
Defined.

(** C5 (amended) at ["false"; "|"; "true"]. *)
Lemma exit_statuses_witness :
  shell_quiet (calm status_of) ["false"; "|"; "true"] = true /\
  exists st : shell,
    run (calm status_of) ["false"; "|"; "true"] = (st, Returned 0) /\
    List.length (sh_children st) = 2%nat.
Proof.
  assert (H : shell_quiet (calm status_of) ["false"; "|"; "true"] = true)
    by reflexivity.
  split; [exact H|].
  destruct (exit_statuses_are_discarded (calm status_of) ["false"; "|"; "true"] H)
    as (st & Hrun & Hlen & _).
  exists st. split; assumption.
Defined.

(** C4 (amended) at ["a"; "|"; "b"; "|"; "c"], without failure and
    with the second [fork] failing. *)
Lemma fork_failure_witness :
  (shell_quiet (calm status_of) ["a"; "|"; "b"; "|"; "c"] = true /\
   exists st : shell,
     run (calm status_of) ["a"; "|"; "b"; "|"; "c"] = (st, Returned 0)) /\
  (0 <= 1 < ncommands_of ["a"; "|"; "b"; "|"; "c"] /\
   malloc_fails (fork_fails_at 1) = false /\
   shell_calm (fork_fails_at 1) 0 (Z.to_nat 1) = true /\
   pipe_fails (fork_fails_at 1) (2 * 1) = false /\
   fork_fails (fork_fails_at 1) (Z.to_nat 1) = true /\
   exists st : shell,
     run (fork_fails_at 1) ["a"; "|"; "b"; "|"; "c"] = (st, Returned 1) /\
     List.length (sh_children st) = Z.to_nat 1).
Proof.
  assert (Hq : shell_quiet (calm status_of) ["a"; "|"; "b"; "|"; "c"] = true)
    by reflexivity.
  assert (Hi : 0 <= 1 < ncommands_of ["a"; "|"; "b"; "|"; "c"])
    by (vm_compute; split; [discriminate|reflexivity]).
  assert (Hm : malloc_fails (fork_fails_at 1) = false) by reflexivity.
  assert (Hc : shell_calm (fork_fails_at 1) 0 (Z.to_nat 1) = true) by reflexivity.
  assert (Hp : pipe_fails (fork_fails_at 1) (2 * 1) = false) by reflexivity.
  assert (Hf : fork_fails (fork_fails_at 1) (Z.to_nat 1) = true) by reflexivity.
  split.
  - split; [exact Hq|].
    destruct (proj1 (fork_failure_returns_without_waiting (calm status_of)
                       ["a"; "|"; "b"; "|"; "c"]) Hq) as (st & Hrun & _).
    exists st. exact Hrun.
  - repeat (split; [assumption|]).
    destruct (proj2 (fork_failure_returns_without_waiting (fork_fails_at 1)
                       ["a"; "|"; "b"; "|"; "c"]) 1 Hi Hm Hc (or_intror Hp) Hf)
      as (st & Hrun & Hlen & _).
    exists st. split; assumption.
Defined.

(** C7 (amended) at ["a"; "|"; "b"; "|"; "c"] with the second [pipe]
    failing. *)
Lemma pipe_failure_witness :
  1 <= 1 < ncommands_of ["a"; "|"; "b"; "|"; "c"] - 1 /\
  malloc_fails (pipe_fails_at 2) = false /\
  shell_calm (pipe_fails_at 2) 0 (Z.to_nat 1) = true /\
  pipe_fails (pipe_fails_at 2) (2 * 1) = true /\
  exists st : shell,
    run (pipe_fails_at 2) ["a"; "|"; "b"; "|"; "c"] = (st, Returned 1) /\
    List.length (sh_children st) = Z.to_nat 1.
Proof.
  assert (Hi : 1 <= 1 < ncommands_of ["a"; "|"; "b"; "|"; "c"] - 1)
    by (vm_compute; split; [discriminate|reflexivity]).
  assert (Hm : malloc_fails (pipe_fails_at 2) = false) by reflexivity.
  assert (Hc : shell_calm (pipe_fails_at 2) 0 (Z.to_nat 1) = true) by reflexivity.
  assert (Hp : pipe_fails (pipe_fails_at 2) (2 * 1) = true) by reflexivity.
  split; [exact Hi|]. split; [exact Hm|]. split; [exact Hc|]. split; [exact Hp|].
  destruct (pipe_failure_returns_after_spawning (pipe_fails_at 2)
              ["a"; "|"; "b"; "|"; "c"] 1 Hi Hm Hc Hp)
    as (st & Hrun & Hlen & _).
  exists st. split; assumption.
Defined.

(** C9 (amended) at ["a"; "|"; "b"; "|"; "c"] with the shell's first
    [close] failing. *)
Lemma shell_close_failure_witness :
  0 <= 0 < ncommands_of ["a"; "|"; "b"; "|"; "c"] /\
  malloc_fails (shell_close_fails_on 1) = false /\
  shell_calm (shell_close_fails_on 1) 0 (Z.to_nat 0) = true /\
  pipe_fails (shell_close_fails_on 1) (2 * 0) = false /\
  fork_fails (shell_close_fails_on 1) (Z.to_nat 0) = false /\
  shell_close_fails_at (shell_close_fails_on 1)
    (ncommands_of ["a"; "|"; "b"; "|"; "c"]) 0 = true /\
  exists st : shell,
    run (shell_close_fails_on 1) ["a"; "|"; "b"; "|"; "c"] = (st, Returned 1) /\
    List.length (sh_children st) = 1%nat.
Proof.
  assert (Hi : 0 <= 0 < ncommands_of ["a"; "|"; "b"; "|"; "c"])
    by (vm_compute; split; [discriminate|reflexivity]).
  assert (Hm : malloc_fails (shell_close_fails_on 1) = false) by reflexivity.
  assert (Hc : shell_calm (shell_close_fails_on 1) 0 (Z.to_nat 0) = true)
    by reflexivity.
  assert (Hp : pipe_fails (shell_close_fails_on 1) (2 * 0) = false) by reflexivity.
  assert (Hf : fork_fails (shell_close_fails_on 1) (Z.to_nat 0) = false)
    by reflexivity.
  assert (Hcf : shell_close_fails_at (shell_close_fails_on 1)
                  (ncommands_of ["a"; "|"; "b"; "|"; "c"]) 0 = true) by reflexivity.
  repeat (split; [assumption|]).
  destruct (shell_close_failure_aborts (shell_close_fails_on 1)
              ["a"; "|"; "b"; "|"; "c"] 0 Hi Hm Hc Hp Hf Hcf)
    as (st & Hrun & Hlen & _).
  exists st. split; assumption.
Defined.

(** * Further properties of the code *)

(** ** The spawn loop in any world *)

Lemma dups_app (t1 t2 : list event) : dups (t1 ++ t2) = dups t1 ++ dups t2.
Proof.
  induction t1 as [|[c r] t1 IH]; simpl; [reflexivity|].
  destruct c; simpl; now rewrite IH.
Qed.

Section AnyWorld.

Variable w : world.
Variable sliced : list strvec.
Variables np nc : Z.

(* Reduce the code around the call just made and settle its tests. *)
Ltac step :=
  cbn [bind call negb sh_fds sh_children sh_trace sh_waits
       log add_child reaped];
  decide_eqb;
  cbn [bind call negb].

(* Compute a descriptor table whose slots are known. *)
Ltac table :=
  cbn [sh_fds log add_child reaped];
  match goal with
  | H : sh_fds _ = _ |- _ => rewrite ?H
  | _ => idtac
  end;
  unfold shell_fds, fork_fds, allocate, release, is_open;
  repeat (progress (cbn [open std_in std_out app existsb filter negb orb];
                    decide_eqb));
  try reflexivity; try (f_equal; f_equal; lia).

(* A call that the world lets through, or not. *)
Ltac pipe_call H :=
  match goal with
  | |- context [exec_shell w (Sys (SPipe ?idx) _) _] =>
      destruct (pipe_fails w idx) eqn:H;
      [rewrite shell_pipe_fails by exact H
      |rewrite shell_pipe_ok by exact H]; step
  end.

Ltac fork_call H Hn :=
  match goal with
  | |- context [exec_shell w (Sys SFork _) ?s] =>
      destruct (fork_fails w (List.length (sh_children s))) eqn:H;
      [rewrite shell_fork_fails by exact H
      |rewrite shell_fork_ok by exact H]; step
  end.

Ltac close_call H :=
  match goal with
  | |- context [exec_shell w (Sys (SClose ?idx) _) ?s] =>
      destruct (is_open (sh_fds s) idx && negb (close_fails w Shell idx)) eqn:H;
      [apply andb_true_iff in H as [? H]; apply negb_true_iff in H;
       rewrite shell_close_ok by assumption
      |rewrite shell_close_fails by exact H]; step
  end.

(* The function has returned 1: the state it leaves. *)
Ltac gone Hn :=
  rewrite shell_bail; right;
  eexists; eexists; split; [reflexivity|];
  cbn [sh_fds sh_children sh_waits sh_trace log add_child];
  split; [first [left; reflexivity | right; rewrite Hn; table]|];
  split; [reflexivity|];
  split; [rewrite <- !app_assoc; reflexivity|];
  split; [repeat (progress (cbn [existsb failed app orb]; decide_eqb)); reflexivity|];
  split; [reflexivity|];
  split; [reflexivity|];
  split; [cbn [closes app]; repeat (constructor; [cbn [In]; lia|]); constructor
         |intros s Hs; cbn [closes app In] in Hs; lia].

(* The iteration is over and the loop goes on. *)
Ltac onward Hn :=
  left; eexists; eexists; split; [reflexivity|];
  cbn [sh_fds sh_children sh_waits sh_trace log add_child];
  split; [table|];
  split; [rewrite Hn; table|];
  split; [reflexivity|];
  split; [rewrite <- ?app_assoc; reflexivity|];
  split; [cbn [closes app]; reflexivity|];
  split; [repeat (progress (cbn [existsb failed app orb]; decide_eqb)); reflexivity|];
  split; reflexivity.

(** One iteration, whatever the world decides: either every call of the
    shell goes well and the loop goes on, or one fails and the function
    returns 1 there. *)
Lemma spawn_body_outcome (i : Z) (next : prog Z) (st : shell) :
  0 <= i < nc ->
  sh_fds st = shell_fds nc i ->
  Z.of_nat (List.length (sh_children st)) = i ->
  (exists (st' : shell) (tr : list event),
     exec_shell w (spawn_body sliced np nc i next) st = exec_shell w next st' /\
     sh_fds st' = shell_fds nc (i + 1) /\
     sh_children st' = sh_children st ++ [child_at w sliced np nc i] /\
     sh_waits st' = sh_waits st /\
     sh_trace st' = sh_trace st ++ tr /\
     closes tr = shell_closes nc i /\
     existsb failed tr = false /\
     wait_calls tr = 0%nat /\
     dups tr = []) \/
  (exists (st' : shell) (tr : list event),
     exec_shell w (spawn_body sliced np nc i next) st = (st', Returned 1) /\
     (sh_children st' = sh_children st \/
      sh_children st' = sh_children st ++ [child_at w sliced np nc i]) /\
     sh_waits st' = sh_waits st /\
     sh_trace st' = sh_trace st ++ tr /\
     existsb failed tr = true /\
     wait_calls tr = 0%nat /\
     dups tr = [] /\
     NoDup (closes tr) /\
     forall s, In s (closes tr) -> s = 2 * i - 2 \/ s = 2 * i \/ s = 2 * i + 1).
Proof.
  intros Hi Hfds Hlen.
  assert (Hn : List.length (sh_children st) = Z.to_nat i) by lia.
  unfold spawn_body, child_at, shell_closes.
  destruct (Z.eqb_spec i 0) as [E0|E0]; destruct (Z.eqb_spec i (nc - 1)) as [E1|E1];
    step.
  - fork_call Hf Hn.
    + close_call Hc; [close_call Hc'|]; gone Hn.
    + onward Hn.
  - pipe_call Hp; [gone Hn|].
    fork_call Hf Hn.
    + close_call Hc; [close_call Hc'|]; gone Hn.
    + close_call Hc; [onward Hn|gone Hn].
  - fork_call Hf Hn.
    + close_call Hc; [close_call Hc'|]; gone Hn.
    + close_call Hc; [onward Hn|gone Hn].
  - pipe_call Hp; [gone Hn|].
    fork_call Hf Hn.
    + close_call Hc; [close_call Hc'|]; gone Hn.
    + close_call Hc; [|gone Hn].
      close_call Hc'; [onward Hn|gone Hn].
Qed.

Lemma shell_wait_fails (k : Z -> prog Z) (st : shell) :
  (sh_waits st <? List.length (sh_children st))%nat
  && negb (wait_fails w (sh_waits st)) = false ->
  exec_shell w (Sys SWait k) st
  = exec_shell w (k (-1)) (log (SWait, -1) (sh_fds st) st).
Proof. intros H. cbn [exec_shell]. now rewrite H. Qed.

(** The rest of the spawn loop from iteration [i], whatever the world
    decides: all the remaining processes are created, or the function
    returns 1 after [k] of them. *)
Lemma spawn_loop_outcome (j : nat) :
  forall (i : Z) (after : prog Z) (st : shell),
  0 <= i -> i + Z.of_nat j = nc ->
  sh_fds st = shell_fds nc i ->
  Z.of_nat (List.length (sh_children st)) = i ->
  (exists (st' : shell) (tr : list event),
     exec_shell w (for_loop j i (spawn_body sliced np nc) after) st
     = exec_shell w after st' /\
     sh_fds st' = shell_fds nc nc /\
     sh_children st'
     = sh_children st ++ map (child_at w sliced np nc) (range i j) /\
     sh_waits st' = sh_waits st /\
     sh_trace st' = sh_trace st ++ tr /\
     closes tr = flat_map (shell_closes nc) (range i j) /\
     existsb failed tr = false /\
     wait_calls tr = 0%nat /\
     dups tr = []) \/
  (exists (st' : shell) (tr : list event) (k : nat),
     exec_shell w (for_loop j i (spawn_body sliced np nc) after) st
     = (st', Returned 1) /\
     (k <= j)%nat /\
     sh_children st'
     = sh_children st ++ map (child_at w sliced np nc) (range i k) /\
     sh_waits st' = sh_waits st /\
     sh_trace st' = sh_trace st ++ tr /\
     existsb failed tr = true /\
     wait_calls tr = 0%nat /\
     dups tr = [] /\
     exists (m : nat) (last : list Z),
       (m < j)%nat /\
       closes tr = flat_map (shell_closes nc) (range i m) ++ last /\
       NoDup last /\
       forall s, In s last ->
         s = 2 * (i + Z.of_nat m) - 2 \/ s = 2 * (i + Z.of_nat m)
         \/ s = 2 * (i + Z.of_nat m) + 1).
Proof.
  induction j as [|j IH]; intros i after st Hi Hj Hfds Hlen.
  - left. exists st, []. cbn [for_loop range map seq flat_map].
    rewrite !app_nil_r. split; [reflexivity|].
    split; [rewrite Hfds; f_equal; lia|]. now repeat split.
  - cbn [for_loop].
    destruct (spawn_body_outcome i (for_loop j (i + 1) (spawn_body sliced np nc) after)
                st ltac:(lia) Hfds Hlen)
      as [(st1 & tr1 & He1 & Hf1 & Hch1 & Hw1 & Ht1 & Hcl1 & Hfl1 & Hwc1 & Hd1)
         |(st1 & tr1 & He1 & Hch1 & Hw1 & Ht1 & Hfl1 & Hwc1 & Hd1 & Hnd1 & Hin1)].
    + destruct (IH (i + 1) after st1 ltac:(lia) ltac:(lia) Hf1)
        as [(st2 & tr2 & He2 & Hf2 & Hch2 & Hw2 & Ht2 & Hcl2 & Hfl2 & Hwc2 & Hd2)
           |(st2 & tr2 & k & He2 & Hk & Hch2 & Hw2 & Ht2 & Hfl2 & Hwc2 & Hd2
             & m & last & Hm & Hcl2 & Hnd2 & Hin2)].
      { rewrite Hch1, length_app. simpl. lia. }
      * left. exists st2, (tr1 ++ tr2). rewrite He1, He2, range_succ.
        cbn [map flat_map].
        split; [reflexivity|]. split; [exact Hf2|].
        split; [rewrite Hch2, Hch1, <- app_assoc; reflexivity|].
        split; [congruence|].
        split; [rewrite Ht2, Ht1, <- app_assoc; reflexivity|].
        split; [rewrite closes_app, Hcl1, Hcl2; reflexivity|].
        split; [rewrite existsb_app, Hfl1, Hfl2; reflexivity|].
        split; [rewrite wait_calls_app, Hwc1, Hwc2; reflexivity|].
        rewrite dups_app, Hd1, Hd2. reflexivity.
      * right. exists st2, (tr1 ++ tr2), (S k). rewrite He1, He2, range_succ.
        cbn [map].
        split; [reflexivity|]. split; [lia|].
        split; [rewrite Hch2, Hch1, <- app_assoc; reflexivity|].
        split; [congruence|].
        split; [rewrite Ht2, Ht1, <- app_assoc; reflexivity|].
        split; [rewrite existsb_app, Hfl1, Hfl2; reflexivity|].
        split; [rewrite wait_calls_app, Hwc1, Hwc2; reflexivity|].
        split; [rewrite dups_app, Hd1, Hd2; reflexivity|].
        exists (S m), last. split; [lia|].
        split; [rewrite closes_app, Hcl1, Hcl2, range_succ; cbn [flat_map];
                now rewrite <- app_assoc|].
        split; [exact Hnd2|].
        intros s Hs. specialize (Hin2 s Hs). lia.
    + right.
      assert (Hlast : exists (m : nat) (last : list Z),
                 (m < S j)%nat /\
                 closes tr1 = flat_map (shell_closes nc) (range i m) ++ last /\
                 NoDup last /\
                 forall s, In s last ->
                   s = 2 * (i + Z.of_nat m) - 2 \/ s = 2 * (i + Z.of_nat m)
                   \/ s = 2 * (i + Z.of_nat m) + 1).
      { exists 0%nat, (closes tr1). split; [lia|]. split; [reflexivity|].
        split; [exact Hnd1|]. intros s Hs. specialize (Hin1 s Hs). lia. }
      destruct Hch1 as [Hch1|Hch1].
      * exists st1, tr1, 0%nat. rewrite He1. cbn [range map seq].
        rewrite app_nil_r. repeat split; try assumption. lia.
      * exists st1, tr1, 1%nat. rewrite He1. cbn [range map seq].
        rewrite Z.add_0_r. repeat split; try assumption. lia.
Qed.

Lemma wait_body_ok (i : Z) (next : prog Z) (st : shell) :
  (sh_waits st < List.length (sh_children st))%nat ->
  wait_fails w (sh_waits st) = false ->
  exec_shell w (wait_body i next) st
  = exec_shell w next
      (reaped (log (SWait, Z.of_nat (S (sh_waits st))) (sh_fds st) st)).
Proof.
  intros H1 H2. unfold wait_body. cbn [bind call].
  rewrite shell_wait_ok by assumption. step. reflexivity.
Qed.

Lemma wait_body_fails (i : Z) (next : prog Z) (st : shell) :
  (sh_waits st <? List.length (sh_children st))%nat
  && negb (wait_fails w (sh_waits st)) = false ->
  exec_shell w (wait_body i next) st
  = (log (SFree, 0) (sh_fds st)
       (log (SPerror "wait", 0) (sh_fds st) (log (SWait, -1) (sh_fds st) st)),
     Returned 1).
Proof.
  intros H. unfold wait_body. cbn [bind call].
  rewrite shell_wait_fails by exact H. step. rewrite shell_bail. reflexivity.
Qed.

(** The wait loop, whatever the world decides. *)
Lemma wait_loop_outcome (n : nat) :
  forall (i : Z) (after : prog Z) (st : shell),
  (sh_waits st <= List.length (sh_children st))%nat ->
  (exists (st' : shell) (tr : list event),
     exec_shell w (for_loop n i wait_body after) st = exec_shell w after st' /\
     sh_fds st' = sh_fds st /\
     sh_children st' = sh_children st /\
     sh_waits st' = (sh_waits st + n)%nat /\
     (sh_waits st' <= List.length (sh_children st))%nat /\
     sh_trace st' = sh_trace st ++ tr /\
     closes tr = [] /\
     existsb failed tr = false /\
     wait_calls tr = n /\
     dups tr = []) \/
  (exists (st' : shell) (tr : list event),
     exec_shell w (for_loop n i wait_body after) st = (st', Returned 1) /\
     sh_children st' = sh_children st /\
     (sh_waits st' <= List.length (sh_children st))%nat /\
     (sh_waits st' < sh_waits st + n)%nat /\
     sh_trace st' = sh_trace st ++ tr /\
     existsb failed tr = true /\
     (wait_calls tr <= n)%nat /\
     dups tr = [] /\
     closes tr = []).
Proof.
  induction n as [|n IH]; intros i after st Hle.
  - left. exists st, []. cbn [for_loop]. rewrite Nat.add_0_r, app_nil_r.
    now repeat split.
  - cbn [for_loop].
    destruct ((sh_waits st <? List.length (sh_children st))%nat
              && negb (wait_fails w (sh_waits st))) eqn:Hok.
    + apply andb_true_iff in Hok as [Hlt Hwf].
      apply Nat.ltb_lt in Hlt. apply negb_true_iff in Hwf.
      rewrite wait_body_ok by assumption.
      set (st1 := reaped (log _ _ st)).
      pose (e := (SWait, Z.of_nat (S (sh_waits st)))).
      assert (Hfe : failed e = false).
      { subst e. cbn [failed]. decide_eqb. reflexivity. }
      destruct (IH (i + 1) after st1)
        as [(st2 & tr2 & He & Hf & Hch & Hws & Hb & Ht & Hcl & Hfl & Hwc & Hd)
           |(st2 & tr2 & He & Hch & Hb & Hlt2 & Ht & Hfl & Hwc & Hd & Hcl)].
      { subst st1. cbn. lia. }
      * left. exists st2, (e :: tr2). rewrite He. subst st1 e.
        cbn [sh_fds sh_children sh_waits sh_trace reaped log] in *.
        split; [reflexivity|]. split; [exact Hf|]. split; [exact Hch|].
        split; [lia|]. split; [lia|].
        split; [rewrite Ht, <- app_assoc; reflexivity|].
        split; [exact Hcl|].
        split; [cbn [existsb]; rewrite Hfe, Hfl; reflexivity|].
        split; [cbn [wait_calls]; lia|exact Hd].
      * right. exists st2, (e :: tr2). rewrite He. subst st1 e.
        cbn [sh_fds sh_children sh_waits sh_trace reaped log] in *.
        split; [reflexivity|]. split; [exact Hch|].
        split; [lia|]. split; [lia|].
        split; [rewrite Ht, <- app_assoc; reflexivity|].
        split; [cbn [existsb]; rewrite Hfe, Hfl; reflexivity|].
        split; [cbn [wait_calls]; lia|]. split; [exact Hd|exact Hcl].
    + rewrite wait_body_fails by exact Hok.
      right. eexists; eexists; split; [reflexivity|].
      cbn [sh_fds sh_children sh_waits sh_trace log].
      split; [reflexivity|]. split; [lia|]. split; [lia|].
      split; [rewrite <- !app_assoc; reflexivity|].
      split; [reflexivity|]. split; [cbn; lia|]. split; reflexivity.
Qed.

(** [fork] fails for a command that is not the last, and the two
    [close] calls that follow go through: the channel just allocated is
    released and the table is as it was before the iteration. *)
Lemma spawn_body_fork_fails_releases (i : Z) (next : prog Z) (st : shell) :
  0 <= i < nc - 1 ->
  pipe_fails w (2 * i) = false ->
  fork_fails w (Z.to_nat i) = true ->
  close_fails w Shell (2 * i) = false ->
  close_fails w Shell (2 * i + 1) = false ->
  sh_fds st = shell_fds nc i ->
  Z.of_nat (List.length (sh_children st)) = i ->
  exists (st' : shell) (tr : list event),
    exec_shell w (spawn_body sliced np nc i next) st = (st', Returned 1) /\
    sh_fds st' = shell_fds nc i /\
    sh_children st' = sh_children st /\
    sh_trace st' = sh_trace st ++ tr /\
    closes tr = [2 * i; 2 * i + 1].
Proof.
  intros Hi Hp Hf Hc0 Hc1 Hfds Hlen.
  assert (Hn : List.length (sh_children st) = Z.to_nat i) by lia.
  unfold spawn_body.
  destruct (Z.eqb_spec i 0) as [E0|E0]; step;
    (rewrite shell_pipe_ok by exact Hp); step;
    (rewrite shell_fork_fails by (cbn [sh_children log]; now rewrite Hn)); step;
    (rewrite shell_close_ok; [|table|exact Hc0]); step;
    (rewrite shell_close_ok; [|table|exact Hc1]); step;
    rewrite shell_bail;
    (eexists; eexists; split; [reflexivity|]);
    cbn [sh_fds sh_children sh_waits sh_trace log];
    (split; [table|]);
    (split; [reflexivity|]);
    (split; [rewrite <- !app_assoc; reflexivity|reflexivity]).
Qed.

End AnyWorld.

(** ** A whole invocation in any world *)

(** The slots closed by the iterations before [k], each once. *)
Lemma shell_closes_prefix_count (nc : Z) (k : nat) (s : Z) :
  Z.of_nat k <= nc ->
  count_occ Z.eq_dec (flat_map (shell_closes nc) (range 0 k)) s
  = if (0 <=? closer nc s) && (closer nc s <? Z.of_nat k) then 1%nat else 0%nat.
Proof.
  intros Hk.
  rewrite (count_flat_map_range (shell_closes nc) s (closer nc s))
    by (intros t Ht; apply shell_closes_count; lia).
  reflexivity.
Qed.

(** The slots an iteration that fails calls [close] on are none of
    those closed by the iterations before it. *)
Lemma closes_before_failure_distinct (nc : Z) (m : nat) (last : list Z) :
  Z.of_nat m <= nc ->
  NoDup last ->
  (forall s, In s last ->
     s = 2 * Z.of_nat m - 2 \/ s = 2 * Z.of_nat m \/ s = 2 * Z.of_nat m + 1) ->
  NoDup (flat_map (shell_closes nc) (range 0 m) ++ last).
Proof.
  intros Hm Hnd Hin. apply (NoDup_count_occ Z.eq_dec). intros s.
  rewrite count_occ_app, shell_closes_prefix_count by exact Hm.
  pose proof (proj1 (NoDup_count_occ Z.eq_dec last) Hnd s) as Hle.
  destruct ((0 <=? closer nc s) && (closer nc s <? Z.of_nat m)) eqn:Hc; [|lia].
  destruct (count_occ Z.eq_dec last s) eqn:Hl; [lia|]. exfalso.
  assert (Hs : In s last) by (apply (count_occ_In Z.eq_dec); lia).
  specialize (Hin s Hs).
  apply andb_true_iff in Hc as [H0 H1].
  apply Z.leb_le in H0. apply Z.ltb_lt in H1. unfold closer in H0, H1.
  pose proof (Z.div_mod s 2 ltac:(lia)) as Hdm.
  pose proof (Z.mod_pos_bound s 2 ltac:(lia)) as Hmb.
  destruct ((0 <=? s) && (s <? 2 * (nc - 1))); [|lia].
  destruct (Z.eqb_spec (s mod 2) 0); lia.
Qed.

(** Either no call of the shell fails and the function returns 0 with
    every command spawned and waited for, or one fails and it returns 1
    with the first [k] commands spawned. *)
Lemma run_outcome (w : world) (tokens : strvec) :
  exists st : shell,
    (run w tokens = (st, Returned 0) /\
     existsb failed (sh_trace st) = false /\
     sh_fds st = no_fds /\
     sh_children st
     = map (command_process w tokens) (range 0 (Z.to_nat (ncommands_of tokens))) /\
     sh_waits st = Z.to_nat (ncommands_of tokens) /\
     wait_calls (sh_trace st) = Z.to_nat (ncommands_of tokens) /\
     closes (sh_trace st)
     = flat_map (shell_closes (ncommands_of tokens))
         (range 0 (Z.to_nat (ncommands_of tokens))) /\
     dups (sh_trace st) = []) \/
    (run w tokens = (st, Returned 1) /\
     existsb failed (sh_trace st) = true /\
     (exists k : nat,
         (k <= Z.to_nat (ncommands_of tokens))%nat /\
         sh_children st = map (command_process w tokens) (range 0 k) /\
         ((0 < wait_calls (sh_trace st))%nat ->
          k = Z.to_nat (ncommands_of tokens))) /\
     (sh_waits st <= List.length (sh_children st))%nat /\
     (sh_waits st < Z.to_nat (ncommands_of tokens))%nat /\
     (wait_calls (sh_trace st) <= Z.to_nat (ncommands_of tokens))%nat /\
     dups (sh_trace st) = [] /\
     NoDup (closes (sh_trace st))).
Proof.
  pose proof (ncommands_of_pos tokens) as Hpos.
  unfold run, run_pipelined_commands, command_process.
  fold (num_pipes_of tokens). fold (ncommands_of tokens).
  set (nc := ncommands_of tokens) in *. set (np := num_pipes_of tokens) in *.
  rewrite segment_split_on.
  cbn [bind call exec_shell local_call].
  destruct (malloc_fails w) eqn:Hm.
  - cbn [Z.eqb bind fprintf call exec_shell local_call].
    eexists. right. split; [reflexivity|].
    cbn [sh_fds sh_children sh_waits sh_trace log shell_start app
         existsb failed wait_calls dups Z.eqb orb].
    split; [reflexivity|]. split.
    { exists 0%nat. split; [lia|]. split; [reflexivity|]. intros H; inversion H. }
    split; [lia|]. split; [lia|]. split; [lia|]. split; [reflexivity|].
    cbn [closes]. constructor.
  - cbn [Z.eqb bind].
    set (st0 := log _ _ shell_start).
    destruct (spawn_loop_outcome w (split_on "|" tokens) np nc (Z.to_nat nc) 0
                (for_loop (Z.to_nat nc) 0 wait_body (free (Ret 0))) st0)
      as [(st1 & tr1 & He1 & Hf1 & Hch1 & Hw1 & Ht1 & Hcl1 & Hfl1 & Hwc1 & Hd1)
         |(st1 & tr1 & k & He1 & Hk & Hch1 & Hw1 & Ht1 & Hfl1 & Hwc1 & Hd1
          & m & last & Hml & Hcl1 & Hnd1 & Hin1)];
      try (subst st0; cbn; lia).
    { subst st0. unfold shell_fds. reflexivity. }
    + assert (Hlen1 : List.length (sh_children st1) = Z.to_nat nc).
      { rewrite Hch1. subst st0. cbn [sh_children log shell_start app].
        rewrite length_map. unfold range. now rewrite length_map, length_seq. }
      rewrite He1.
      destruct (wait_loop_outcome w (Z.to_nat nc) 0 (free (Ret 0)) st1)
        as [(st2 & tr2 & He2 & Hf2 & Hch2 & Hw2 & Hb2 & Ht2 & Hcl2 & Hfl2 & Hwc2 & Hd2)
           |(st2 & tr2 & He2 & Hch2 & Hb2 & Hlt2 & Ht2 & Hfl2 & Hwc2 & Hd2 & Hcl2c)].
      { rewrite Hw1. subst st0. cbn. lia. }
      * rewrite He2. unfold free. cbn [bind call exec_shell local_call].
        eexists. left. split; [reflexivity|].
        cbn [sh_fds sh_children sh_waits sh_trace log].
        subst st0. cbn [sh_fds sh_children sh_waits sh_trace log shell_start] in *.
        rewrite Ht2, Ht1. cbn [app].
        split.
        { cbn [existsb failed]. rewrite !existsb_app, Hfl1, Hfl2. reflexivity. }
        split.
        { rewrite Hf2, Hf1. unfold shell_fds, no_fds.
          now rewrite Z.eqb_refl, orb_true_r. }
        split; [now rewrite Hch2, Hch1|].
        split; [rewrite Hw2, Hw1; reflexivity|].
        split.
        { cbn [wait_calls]. rewrite !wait_calls_app, Hwc1, Hwc2.
          cbn [wait_calls]. lia. }
        split.
        { cbn [closes]. rewrite !closes_app, Hcl1, Hcl2. cbn [closes].
          now rewrite !app_nil_r. }
        cbn [dups]. rewrite !dups_app, Hd1, Hd2. reflexivity.
      * rewrite He2. exists st2. right. split; [reflexivity|].
        subst st0. cbn [sh_fds sh_children sh_waits sh_trace log shell_start] in *.
        rewrite Ht2, Ht1. cbn [app].
        split.
        { cbn [existsb failed]. rewrite !existsb_app, Hfl1, Hfl2. reflexivity. }
        split.
        { exists (Z.to_nat nc). split; [lia|]. split; [now rewrite Hch2, Hch1|].
          reflexivity. }
        split; [rewrite Hch2; exact Hb2|].
        split; [lia|].
        split.
        { cbn [wait_calls]. rewrite !wait_calls_app, Hwc1. lia. }
        split; [cbn [dups]; rewrite !dups_app, Hd1, Hd2; reflexivity|].
        cbn [closes]. rewrite closes_app, Hcl1, Hcl2c.
        apply (closes_before_failure_distinct nc (Z.to_nat nc) []);
          [lia|constructor|intros s []].
    + rewrite He1. exists st1. right. split; [reflexivity|].
      subst st0. cbn [sh_fds sh_children sh_waits sh_trace log shell_start] in *.
      rewrite Ht1. cbn [app].
      split.
      { cbn [existsb failed]. rewrite Hfl1. reflexivity. }
      split.
      { exists k. split; [exact Hk|]. split; [exact Hch1|].
        cbn [wait_calls]. rewrite Hwc1. intros H; inversion H. }
      split; [rewrite Hw1; lia|].
      split; [rewrite Hw1; lia|].
      split; [cbn [wait_calls]; rewrite Hwc1; lia|].
      split; [cbn [dups]; exact Hd1|].
      cbn [closes]. rewrite Hcl1.
      apply closes_before_failure_distinct; [lia|exact Hnd1|exact Hin1].
Qed.

(** ** The spawned processes in any world *)

(* Run a spawned process call by call, asking the world at each one. *)
Ltac child_run :=
  repeat first
    [ progress (cbn [exec_child bind call free perror fprintf local_call
                     negb andb orb is_open existsb open std_in std_out
                     release redirect filter app c_end c_fds c_trace
                     inherited];
                decide_eqb)
    | match goal with
      | |- context [close_fails ?w ?p ?i] => destruct (close_fails w p i) eqn:?
      | |- context [dup2_fails ?w ?p ?i] => destruct (dup2_fails w p i) eqn:?
      | |- context [runner ?w ?p ?t] => destruct (runner w p t) eqn:?
      | |- context [if ?z =? 1 then _ else _] => destruct (z =? 1) eqn:?
      end ].


(** The processes of a run are those of the first commands, in order. *)
Lemma run_children (w : world) (tokens : strvec) (j : nat) (c : child) :
  nth_error (sh_children (fst (run w tokens))) j = Some c ->
  (j < Z.to_nat (ncommands_of tokens))%nat /\
  c = command_process w tokens (Z.of_nat j).
Proof.
  intros Hn.
  assert (Hk : exists k : nat,
             (k <= Z.to_nat (ncommands_of tokens))%nat /\
             sh_children (fst (run w tokens))
             = map (command_process w tokens) (range 0 k)).
  { destruct (run_outcome w tokens)
      as (st & [(Hrun & _ & _ & Hch & _) | (Hrun & _ & (k & Hk & Hch & _) & _)]);
      rewrite Hrun; cbn [fst]; eauto. }
  destruct Hk as (k & Hk & Hch). rewrite Hch in Hn.
  assert (Hj : (j < k)%nat).
  { assert (Hs : nth_error (map (command_process w tokens) (range 0 k)) j <> None)
      by congruence.
    apply nth_error_Some in Hs. unfold range in Hs.
    rewrite !length_map, length_seq in Hs. exact Hs. }
  rewrite nth_error_map, nth_error_range in Hn by exact Hj.
  cbn [option_map] in Hn. injection Hn as <-. split; [lia|reflexivity].
Qed.

Lemma run_children_in (w : world) (tokens : strvec) (c : child) :
  In c (sh_children (fst (run w tokens))) ->
  exists i : Z, 0 <= i < ncommands_of tokens /\ c = command_process w tokens i.
Proof.
  intros Hin. apply In_nth_error in Hin as (j & Hj).
  destruct (run_children w tokens j c Hj) as (Hlt & ->).
  exists (Z.of_nat j). split; [lia|reflexivity].
Qed.

(** ** Properties of an invocation in any world *)

(** X1. Whatever fails, [run_pipelined_commands] returns 0 when no call
    made by the shell process failed and 1 when one did; it never
    exits, and never returns another value. *)
Theorem returns_0_exactly_when_no_shell_call_fails (w : world) (tokens : strvec) :
  (snd (run w tokens) = Returned 0 /\
   existsb failed (sh_trace (fst (run w tokens))) = false) \/
  (snd (run w tokens) = Returned 1 /\
   existsb failed (sh_trace (fst (run w tokens))) = true).
Proof.
  destruct (run_outcome w tokens)
    as (st & [(Hrun & Hfl & _) | (Hrun & Hfl & _)]); rewrite Hrun; cbn [fst snd];
    [left|right]; split; assumption || reflexivity.
Qed.

(** X2. When [run_pipelined_commands] returns 0, in any world, one
    process was created per command, each was waited for, every
    endpoint was closed exactly once by the shell and none is open in
    it. *)
Theorem success_means_all_spawned_and_reaped
    (w : world) (tokens : strvec) (st : shell) :
  run w tokens = (st, Returned 0) ->
  List.length (sh_children st) = Z.to_nat (ncommands_of tokens) /\
  sh_waits st = List.length (sh_children st) /\
  wait_calls (sh_trace st) = List.length (sh_children st) /\
  open (sh_fds st) = [] /\
  forall s : Z,
    count_occ Z.eq_dec (closes (sh_trace st)) s
    = if (0 <=? s) && (s <? 2 * num_pipes_of tokens) then 1%nat else 0%nat.
Proof.
  intros Hrun.
  destruct (run_outcome w tokens)
    as (st' & [(Hrun' & Hfl & Hfds & Hch & Hw & Hwc & Hcl & _) | (Hrun' & _)]);
    rewrite Hrun in Hrun'; [|discriminate].
  injection Hrun' as <-.
  assert (Hlen : List.length (sh_children st) = Z.to_nat (ncommands_of tokens)).
  { rewrite Hch, length_map. unfold range. now rewrite length_map, length_seq. }
  rewrite Hlen. split; [reflexivity|]. split; [exact Hw|]. split; [exact Hwc|].
  split; [now rewrite Hfds|].
  intros s. rewrite Hcl.
  rewrite (count_flat_map_range (shell_closes (ncommands_of tokens)) s
             (closer (ncommands_of tokens) s))
    by (intros t Ht; apply shell_closes_count; lia).
  pose proof (ncommands_of_pos tokens) as Hpos.
  unfold closer, ncommands_of in *.
  pose proof (Z.div_mod s 2 ltac:(lia)) as Hdm.
  pose proof (Z.mod_pos_bound s 2 ltac:(lia)) as Hmb.
  replace (num_pipes_of tokens + 1 - 1) with (num_pipes_of tokens) by lia.
  destruct (Z.leb_spec 0 s), (Z.ltb_spec s (2 * num_pipes_of tokens));
    cbn [andb]; [destruct (Z.eqb_spec (s mod 2) 0)| | |];
    repeat match goal with
    | |- context [Z.leb ?a ?b] => destruct (Z.leb_spec a b)
    | |- context [Z.ltb ?a ?b] => destruct (Z.ltb_spec a b)
    end; cbn [andb]; reflexivity || lia.
Qed.

(** X3. In any world the shell creates at most one process per command,
    never waits more often than it has processes, and makes its first
    [wait] call only after all the commands have been spawned. *)
Theorem waits_only_after_all_spawned (w : world) (tokens : strvec) :
  (List.length (sh_children (fst (run w tokens)))
   <= Z.to_nat (ncommands_of tokens))%nat /\
  (sh_waits (fst (run w tokens))
   <= List.length (sh_children (fst (run w tokens))))%nat /\
  (wait_calls (sh_trace (fst (run w tokens)))
   <= Z.to_nat (ncommands_of tokens))%nat /\
  (wait_calls (sh_trace (fst (run w tokens))) = 0%nat \/
   List.length (sh_children (fst (run w tokens)))
   = Z.to_nat (ncommands_of tokens)).
Proof.
  assert (Hr : forall k, List.length (map (command_process w tokens) (range 0 k)) = k).
  { intros k. rewrite length_map. unfold range. now rewrite length_map, length_seq. }
  destruct (run_outcome w tokens)
    as (st & [(Hrun & _ & _ & Hch & Hw & Hwc & _)
             |(Hrun & _ & (k & Hk & Hch & Hall) & Hw & _ & Hwc & _)]);
    rewrite Hrun; cbn [fst].
  - rewrite Hch, Hr, Hw, Hwc. repeat split; lia.
  - rewrite Hch, Hr in *.
    assert (Hd : wait_calls (sh_trace st) = 0%nat \/ k = Z.to_nat (ncommands_of tokens))
      by (destruct (wait_calls (sh_trace st)); [now left|right; apply Hall; lia]).
    repeat split; lia.
Qed.

(** X4. In any world the shell process makes no [dup2] call: the
    redirections are made in the spawned processes only. *)
Theorem shell_makes_no_dup2_call (w : world) (tokens : strvec) :
  dups (sh_trace (fst (run w tokens))) = [].
Proof.
  destruct (run_outcome w tokens)
    as (st & [(Hrun & _ & _ & _ & _ & _ & _ & H)
             |(Hrun & _ & _ & _ & _ & _ & H & _)]); rewrite Hrun; cbn [fst];
    exact H.
Qed.

(** X18. In any world, also on every path where a call fails, the shell
    process never calls [close] twice on the same slot. *)
Theorem shell_never_closes_a_slot_twice (w : world) (tokens : strvec) :
  NoDup (closes (sh_trace (fst (run w tokens)))).
Proof.
  destruct (run_outcome w tokens)
    as (st & [(Hrun & _ & _ & _ & _ & _ & Hcl & _)
             |(Hrun & _ & _ & _ & _ & _ & _ & H)]); rewrite Hrun; cbn [fst];
    [|exact H].
  rewrite Hcl, <- (app_nil_r (flat_map _ _)).
  apply closes_before_failure_distinct; [|constructor|intros s []].
  pose proof (ncommands_of_pos tokens). lia.
Qed.

(** X5. In any world, the [j]-th process created starts with the read
    end of channel j-1 (when j > 0) and the two ends of channel j (when
    j is not the last command) and with no other endpoint. *)
Theorem process_inherits_adjacent_endpoints_only
    (w : world) (tokens : strvec) (j : nat) (c : child) :
  nth_error (sh_children (fst (run w tokens))) j = Some c ->
  inherited c
  = (if Z.of_nat j =? 0 then [] else [2 * Z.of_nat j - 2])
    ++ (if Z.of_nat j =? ncommands_of tokens - 1 then []
        else [2 * Z.of_nat j; 2 * Z.of_nat j + 1]).
Proof.
  intros Hn. destruct (run_children w tokens j c Hn) as (_ & ->).
  unfold command_process, child_at, spawn.
  destruct (exec_child _ _ _ _ _) as [[tr s'] e]. reflexivity.
Qed.


(** A spawned process makes no [malloc], [pipe], [fork] or [wait] call. *)
Lemma child_calls (w : world) (sliced : list strvec) (np nc i : Z) (n : nat)
    (fds : fdstate) :
  forallb child_call (c_trace (spawn w (Child n) (child_branch sliced np nc i) fds))
  = true.
Proof.
  unfold spawn, child_branch, run_piped_command, STDIN_FILENO, STDOUT_FILENO.
  child_cases.
  all: cbn [exec_child bind call free perror fprintf local_call
            c_trace c_end app negb Z.eqb Pos.eqb].
  all: reflexivity.
Qed.


(** Process [i] of [nc >= 2], in any world, calls [close] on slots it
    was created with only, and on none of them twice. *)
Lemma child_at_closes (w : world) (sliced : list strvec) (np nc i : Z) :
  2 <= nc -> 0 <= i < nc ->
  incl (closes (c_trace (child_at w sliced np nc i)))
       (inherited (child_at w sliced np nc i)) /\
  NoDup (closes (c_trace (child_at w sliced np nc i))).
Proof.
  intros Hnc Hi.
  unfold child_at, spawn, child_branch, run_piped_command, fork_fds,
    STDIN_FILENO, STDOUT_FILENO.
  destruct (Z.eqb_spec i 0) as [E0|E0]; [|destruct (Z.eqb_spec i (nc - 1)) as [E1|E1]].
  - subst i. child_run; cbn [closes];
      (split; [intros x Hx; cbn [In] in Hx |- *; lia
              |repeat (constructor; [cbn [In]; lia|]); constructor]).
  - rewrite <- E1. child_run; cbn [closes];
      (split; [intros x Hx; cbn [In] in Hx |- *; lia
              |repeat (constructor; [cbn [In]; lia|]); constructor]).
  - child_run; cbn [closes];
      (split; [intros x Hx; cbn [In] in Hx |- *; lia
              |repeat (constructor; [cbn [In]; lia|]); constructor]).
Qed.

(** X7. In any world a spawned process never comes back into the caller
    of [run_pipelined_commands] and makes no [malloc], [pipe], [fork]
    or [wait] call: it ends with [exit(0)], with [exit(1)], or with the
    command replacing it. *)
Theorem spawned_process_exits_or_execs
    (w : world) (tokens : strvec) (c : child) :
  In c (sh_children (fst (run w tokens))) ->
  (c_end c = Exited 0 \/ c_end c = Exited 1 \/ exists t, c_end c = Execed t) /\
  forallb child_call (c_trace c) = true.
Proof.
  intros Hin. destruct (run_children_in w tokens c Hin) as (i & Hi & ->).
  unfold command_process, child_at. split.
  - apply child_never_returns.
  - apply child_calls.
Qed.


(** X9. In any world and for N >= 2 commands, a spawned process calls
    [close] only on endpoints it was created with, and on none of them
    twice. *)
Theorem process_closes_inherited_endpoints_once
    (w : world) (tokens : strvec) (c : child) :
  2 <= ncommands_of tokens ->
  In c (sh_children (fst (run w tokens))) ->
  incl (closes (c_trace c)) (inherited c) /\ NoDup (closes (c_trace c)).
Proof.
  intros Hnc Hin. destruct (run_children_in w tokens c Hin) as (i & Hi & ->).
  unfold command_process. now apply child_at_closes.
Qed.

(** ** [run_piped_command] on its own *)

Lemma is_open_release (s : fdstate) (idx x : Z) :
  is_open (release idx s) x = is_open s x && negb (x =? idx).
Proof.
  unfold is_open, release. cbn [open].
  induction (open s) as [|y l IH]; cbn [filter existsb]; [reflexivity|].
  destruct (Z.eqb_spec y idx) as [->|Hy]; cbn [negb existsb].
  - rewrite IH. destruct (Z.eqb_spec x idx); cbn [negb orb];
      [now rewrite !andb_false_r|now rewrite andb_true_r].
  - rewrite IH. destruct (Z.eqb_spec x y) as [->|Hx]; cbn [orb]; [|reflexivity].
    destruct (Z.eqb_spec y idx); [contradiction|reflexivity].
Qed.


(** X10. In any process, world and descriptor table,
    [run_piped_command] never returns -1, the value its callers test
    for: either the command replaces the process, or it returns 1, or
    it returns 0, and that only when [run_command] came back with a
    value other than 1. *)
Theorem run_piped_command_never_returns_minus_1
    (w : world) (me : proc) (tokens : strvec) (n_pipes in_idx out_idx : Z)
    (fds : fdstate) :
  let e := snd (exec_child w me
                  (run_piped_command tokens n_pipes in_idx out_idx) fds []) in
  e = Execed tokens \/
  e = Returned 1 \/
  (e = Returned 0 /\ exists r, runner w me tokens = Some r /\ r <> 1).
Proof.
  unfold run_piped_command, STDIN_FILENO, STDOUT_FILENO.
  child_cases.
  all: cbn [exec_child bind call free perror fprintf local_call
            c_trace c_end app negb Z.eqb Pos.eqb snd].
  all: auto.
  all: try congruence.
  all: right; right; split; [reflexivity|]; eexists;
    (split; [first [reflexivity | eassumption]|]).
  all: repeat match goal with
              | H : Some _ = Some _ |- _ => injection H as H; subst
              end.
  all: match goal with H : (_ =? 1) = false |- _ => apply Z.eqb_neq in H; exact H end.
Qed.


(** ** [close_all]: the descriptors afterwards and the value returned *)

Lemma forallb_ext_in {A : Type} (f g : A -> bool) (l : list A) :
  (forall x, In x l -> f x = g x) -> forallb f l = forallb g l.
Proof.
  induction l as [|a l IH]; intros H; cbn [forallb]; [reflexivity|].
  rewrite (H a (or_introl eq_refl)), IH; [reflexivity|].
  intros x Hx. apply H. now right.
Qed.

(* Settle a goal on booleans made of integer comparisons. *)
Ltac split_test :=
  match goal with
  | |- context [?x =? ?y] => destruct (Z.eqb_spec x y)
  | |- context [?x <? ?y] => destruct (Z.ltb_spec x y)
  | |- context [?x <=? ?y] => destruct (Z.leb_spec x y)
  end.

Ltac ranges :=
  repeat split_test;
  cbn [andb negb orb]; rewrite ?andb_true_r, ?andb_false_r;
  try reflexivity; try lia.

Lemma close_all_loop_post (w : world) (n : nat) :
  forall (i ret_val : Z) (st : shell),
    let r := exec_shell w (close_all_loop n i ret_val) st in
    (forall x : Z,
        is_open (sh_fds (fst r)) x
        = is_open (sh_fds st) x
          && negb ((i <=? x) && (x <? i + Z.of_nat n)
                   && negb (close_fails w Shell x))) /\
    snd r = Returned (if forallb (closable w (sh_fds st)) (range i n)
                      then ret_val else 1) /\
    sh_children (fst r) = sh_children st /\
    sh_waits (fst r) = sh_waits st.
Proof.
  induction n as [|n IH]; intros i ret_val st; cbv zeta.
  - cbn [close_all_loop exec_shell fst snd range map seq forallb].
    split; [|now repeat split].
    intros x. ranges.
  - rewrite range_succ. cbn [forallb].
    cbn [close_all_loop bind call exec_shell local_call].
    fold (closable w (sh_fds st) i).
    destruct (closable w (sh_fds st) i) eqn:Hc.
    + cbn [bind]. decide_eqb.
      set (st1 := log (SClose i, 0) (release i (sh_fds st)) st).
      specialize (IH (i + 1) ret_val st1). cbv zeta in IH.
      destruct IH as (Hop & Hret & Hch & Hw).
      unfold closable in Hc. apply andb_true_iff in Hc as [Ho Hf].
      apply negb_true_iff in Hf.
      split; [|split; [|split; assumption]].
      * intros x. rewrite Hop. subst st1. cbn [sh_fds log].
        rewrite is_open_release.
        destruct (Z.eq_dec x i) as [->|Hx]; [rewrite Hf|]; ranges.
      * rewrite Hret. cbn [andb].
        rewrite (forallb_ext_in (closable w (sh_fds st1)) (closable w (sh_fds st)));
          [reflexivity|].
        intros x Hx. apply in_range in Hx. unfold closable. subst st1.
        cbn [sh_fds log]. rewrite is_open_release.
        destruct (Z.eqb_spec x i); [lia|]. cbn [negb]. now rewrite andb_true_r.
    + cbn [bind perror call exec_shell local_call]. decide_eqb.
      cbn [bind exec_shell local_call].
      set (st1 := log (SPerror "close", 0) _ _).
      specialize (IH (i + 1) 1 st1). cbv zeta in IH.
      destruct IH as (Hop & Hret & Hch & Hw).
      split; [|split; [|split; assumption]].
      * intros x. rewrite Hop. subst st1. cbn [sh_fds log].
        unfold closable in Hc.
        destruct (Z.eq_dec x i) as [->|Hx]; [|ranges].
        destruct (is_open (sh_fds st) i), (close_fails w Shell i);
          try discriminate Hc; ranges.
      * rewrite Hret. cbn [andb]. now destruct (forallb _ _).
Qed.


(** X13. [close_all(fds, n)] returns 0 exactly when each of the slots
    0..n-1 held an open descriptor and the world let its [close]
    through, and 1 otherwise; it creates and reaps no process. *)
Theorem close_all_returns_0_iff_all_closed (w : world) (st : shell) (n : Z) :
  snd (exec_shell w (close_all n) st)
  = Returned (if forallb (closable w (sh_fds st)) (range 0 (Z.to_nat n))
              then 0 else 1) /\
  sh_children (fst (exec_shell w (close_all n) st)) = sh_children st /\
  sh_waits (fst (exec_shell w (close_all n) st)) = sh_waits st.
Proof.
  unfold close_all.
  destruct (close_all_loop_post w (Z.to_nat n) 0 0 st) as (_ & H). exact H.
Qed.

(** ** More on the segmentation *)

Section Delimiter.

Variable d : string.

Lemma split_on_no_delimiter (l : strvec) :
  Forall (fun s => ~ In d s) (split_on d l).
Proof.
  induction l as [|x r IH]; cbn [split_on].
  - constructor; [intros []|constructor].
  - destruct (String.eqb_spec x d) as [->|Hne].
    + constructor; [intros []|exact IH].
    + destruct (split_on d r) as [|s ss].
      * constructor; [|constructor]. intros [H|[]]. contradiction.
      * inversion IH as [|? ? Hs Hss]; subst. constructor; [|exact Hss].
        intros [H|H]; contradiction.
Qed.

Lemma split_on_free (s : strvec) : ~ In d s -> split_on d s = [s].
Proof.
  induction s as [|x s IH]; intros H; cbn [split_on]; [reflexivity|].
  destruct (String.eqb_spec x d) as [->|Hne]; [exfalso; apply H; now left|].
  rewrite IH; [reflexivity|]. intros Hin. apply H. now right.
Qed.

Lemma split_on_app (s r : strvec) :
  ~ In d s -> split_on d (s ++ d :: r) = s :: split_on d r.
Proof.
  induction s as [|x s IH]; intros H; cbn [split_on app].
  - now rewrite String.eqb_refl.
  - destruct (String.eqb_spec x d) as [->|Hne]; [exfalso; apply H; now left|].
    rewrite IH; [reflexivity|]. intros Hin. apply H. now right.
Qed.

Lemma split_on_rejoin (segs : list strvec) :
  segs <> [] ->
  Forall (fun s => ~ In d s) segs ->
  split_on d (rejoin d segs) = segs.
Proof.
  induction segs as [|s rest IH]; intros Hne Hall; [contradiction|].
  inversion Hall as [|? ? Hs Hrest]; subst. cbn [rejoin].
  destruct rest as [|s' rest'].
  - now apply split_on_free.
  - rewrite split_on_app by exact Hs. f_equal. apply IH; [discriminate|exact Hrest].
Qed.

End Delimiter.

(** X14. No segment produced by the segmentation step contains the
    delimiter "|". *)
Theorem segments_contain_no_delimiter (tokens : strvec) :
  exists segs : list strvec,
    segment tokens = SegOk segs /\
    Forall (fun s => ~ In "|" s) segs.
Proof.
  exists (split_on "|" tokens). split; [apply segment_split_on|].
  apply split_on_no_delimiter.
Qed.

(** X15. The segmentation step undoes the joining: for a non-empty list
    of command segments none of which contains "|", segmenting their
    concatenation with "|" between them gives the list back. *)
Theorem segment_inverts_rejoin (segs : list strvec) :
  segs <> [] ->
  Forall (fun s => ~ In "|" s) segs ->
  segment (rejoin "|" segs) = SegOk segs.
Proof.
  intros Hne Hall. rewrite segment_split_on. f_equal.
  now apply split_on_rejoin.
Qed.

(** ** The descriptors left when the shell gives up *)

(** X16. When [fork] fails for a command [i] that is not the last, the
    calls before it having succeeded, and the two [close] calls of the
    error path go through, the function returns 1 with both ends of
    channel [i] closed again: the shell is left with the read end of
    channel [i-1] open when [i > 0], and with no endpoint when
    [i = 0]. *)
Theorem fork_failure_releases_new_channel (w : world) (tokens : strvec) (i : Z) :
  0 <= i < ncommands_of tokens - 1 ->
  malloc_fails w = false ->
  shell_calm w 0 (Z.to_nat i) = true ->
  pipe_fails w (2 * i) = false ->
  fork_fails w (Z.to_nat i) = true ->
  close_fails w Shell (2 * i) = false ->
  close_fails w Shell (2 * i + 1) = false ->
  exists st : shell,
    run w tokens = (st, Returned 1) /\
    List.length (sh_children st) = Z.to_nat i /\
    open (sh_fds st) = (if i =? 0 then [] else [2 * i - 2]).
Proof.
  intros Hi Hm Hc Hp Hf Hc0 Hc1.
  destruct (run_prefix w tokens (Z.to_nat i) Hm Hc ltac:(lia))
    as (st & tr & Hrun & Hfds & Hlen & Hw & Ht & Hcl & Hfl & Hwc).
  rewrite Z2Nat.id in Hrun, Hfds by lia.
  destruct (spawn_body_fork_fails_releases w (split_on "|" tokens)
              (num_pipes_of tokens) (ncommands_of tokens) i
              (for_loop (Z.to_nat (ncommands_of tokens) - S (Z.to_nat i)) (i + 1)
                 (spawn_body (split_on "|" tokens) (num_pipes_of tokens)
                    (ncommands_of tokens)) (reap_all tokens))
              st Hi Hp Hf Hc0 Hc1 Hfds ltac:(lia))
    as (st' & tr' & He & Hf' & Hch' & Ht' & Hcl').
  exists st'. rewrite Hrun, He. split; [reflexivity|].
  split; [congruence|]. rewrite Hf'. unfold shell_fds. cbn [open].
  destruct (Z.eqb_spec i 0), (Z.eqb_spec i (ncommands_of tokens)); cbn [orb];
    reflexivity || lia.
Qed.

(** X17. When the allocation of channel [i] fails, the calls before it
    having succeeded, the function returns 1 with [i] processes created
    and the shell left with the read end of channel [i-1] open when
    [i > 0], and with no endpoint when [i = 0]. *)
Theorem pipe_failure_leaves_previous_read_end
    (w : world) (tokens : strvec) (i : Z) :
  0 <= i < ncommands_of tokens - 1 ->
  malloc_fails w = false ->
  shell_calm w 0 (Z.to_nat i) = true ->
  pipe_fails w (2 * i) = true ->
  exists st : shell,
    run w tokens = (st, Returned 1) /\
    List.length (sh_children st) = Z.to_nat i /\
    open (sh_fds st) = (if i =? 0 then [] else [2 * i - 2]).
Proof.
  intros Hi Hm Hc Hp.
  destruct (run_prefix w tokens (Z.to_nat i) Hm Hc ltac:(lia))
    as (st & tr & Hrun & Hfds & Hlen & Hw & Ht & Hcl & Hfl & Hwc).
  rewrite Z2Nat.id in Hrun, Hfds by lia.
  destruct (spawn_body_pipe_fails w (split_on "|" tokens) (num_pipes_of tokens)
              (ncommands_of tokens) i
              (for_loop (Z.to_nat (ncommands_of tokens) - S (Z.to_nat i)) (i + 1)
                 (spawn_body (split_on "|" tokens) (num_pipes_of tokens)
                    (ncommands_of tokens)) (reap_all tokens))
              st ltac:(lia) Hp)
    as (st' & tr' & He & Hf' & Hch' & Hw' & Ht' & Hcl' & Hwc').
  exists st'. rewrite Hrun, He. split; [reflexivity|].
  split; [congruence|]. rewrite Hf', Hfds. unfold shell_fds. cbn [open].
  destruct (Z.eqb_spec i 0), (Z.eqb_spec i (ncommands_of tokens)); cbn [orb];
    reflexivity || lia.
Qed.

(** ** The further properties at concrete pipelines *)

(** X2 at ["a"; "|"; "b"]. *)
Lemma success_witness :
  run (calm status_of) ["a"; "|"; "b"]
  = (fst (run (calm status_of) ["a"; "|"; "b"]), Returned 0) /\
  sh_waits (fst (run (calm status_of) ["a"; "|"; "b"])) = 2%nat.
Proof.
  assert (H : run (calm status_of) ["a"; "|"; "b"]
              = (fst (run (calm status_of) ["a"; "|"; "b"]), Returned 0))
    by (vm_compute; reflexivity).
  split; [exact H|].
  destruct (success_means_all_spawned_and_reaped (calm status_of) ["a"; "|"; "b"]
              _ H) as (Hlen & Hw & _).
  rewrite Hw, Hlen. reflexivity.
Defined.

(** X5 at the second process of ["a"; "|"; "b"]. *)
Lemma inherits_witness :
  nth_error (sh_children (fst (run (calm status_of) ["a"; "|"; "b"]))) 1
  = Some (command_process (calm status_of) ["a"; "|"; "b"] 1) /\
  inherited (command_process (calm status_of) ["a"; "|"; "b"] 1) = [0].
Proof.
  assert (H : nth_error (sh_children (fst (run (calm status_of) ["a"; "|"; "b"]))) 1
              = Some (command_process (calm status_of) ["a"; "|"; "b"] 1))
    by (vm_compute; reflexivity).
  split; [exact H|].
  exact (process_inherits_adjacent_endpoints_only (calm status_of)
           ["a"; "|"; "b"] 1 _ H).
Defined.


(** X7 at the first process of ["a"; "|"; "b"]. *)
Lemma exits_or_execs_witness :
  In (command_process (calm status_of) ["a"; "|"; "b"] 0)
     (sh_children (fst (run (calm status_of) ["a"; "|"; "b"]))) /\
  forallb child_call
    (c_trace (command_process (calm status_of) ["a"; "|"; "b"] 0)) = true.
Proof.
  assert (H : In (command_process (calm status_of) ["a"; "|"; "b"] 0)
                (sh_children (fst (run (calm status_of) ["a"; "|"; "b"]))))
    by (vm_compute; left; reflexivity).
  split; [exact H|].
  exact (proj2 (spawned_process_exits_or_execs (calm status_of) ["a"; "|"; "b"] _ H)).
Defined.


(** X9 at the second process of ["a"; "|"; "b"]. *)
Lemma closes_inherited_witness :
  2 <= ncommands_of ["a"; "|"; "b"] /\
  In (command_process (calm status_of) ["a"; "|"; "b"] 1)
     (sh_children (fst (run (calm status_of) ["a"; "|"; "b"]))) /\
  NoDup (closes (c_trace (command_process (calm status_of) ["a"; "|"; "b"] 1))).
Proof.
  assert (Hnc : 2 <= ncommands_of ["a"; "|"; "b"]) by (vm_compute; discriminate).
  assert (H : In (command_process (calm status_of) ["a"; "|"; "b"] 1)
                (sh_children (fst (run (calm status_of) ["a"; "|"; "b"]))))
    by (vm_compute; right; left; reflexivity).
  split; [exact Hnc|]. split; [exact H|].
  exact (proj2 (process_closes_inherited_endpoints_once (calm status_of)
                  ["a"; "|"; "b"] _ Hnc H)).
Defined.


(** X15 at two one-token segments. *)
Lemma inverts_rejoin_witness :
  [["a"]; ["b"]] <> [] /\
  Forall (fun s => ~ In "|" s) [["a"]; ["b"]] /\
  segment ["a"; "|"; "b"] = SegOk [["a"]; ["b"]].
Proof.
  assert (Hne : [["a"]; ["b"]] <> ([] : list strvec)) by discriminate.
  assert (Hall : Forall (fun s => ~ In "|" s) [["a"]; ["b"]]).
  { repeat constructor; intros [H|[]]; discriminate H. }
  split; [exact Hne|]. split; [exact Hall|].
  exact (segment_inverts_rejoin [["a"]; ["b"]] Hne Hall).
Defined.

(** X16 at ["a"; "|"; "b"] with the first [fork] failing. *)
Lemma fork_release_witness :
  0 <= 0 < ncommands_of ["a"; "|"; "b"] - 1 /\
  malloc_fails (fork_fails_at 0) = false /\
  shell_calm (fork_fails_at 0) 0 (Z.to_nat 0) = true /\
  pipe_fails (fork_fails_at 0) (2 * 0) = false /\
  fork_fails (fork_fails_at 0) (Z.to_nat 0) = true /\
  close_fails (fork_fails_at 0) Shell (2 * 0) = false /\
  close_fails (fork_fails_at 0) Shell (2 * 0 + 1) = false /\
  exists st : shell,
    run (fork_fails_at 0) ["a"; "|"; "b"] = (st, Returned 1) /\
    open (sh_fds st) = [].
Proof.
  assert (Hi : 0 <= 0 < ncommands_of ["a"; "|"; "b"] - 1)
    by (vm_compute; split; [discriminate|reflexivity]).
  assert (Hm : malloc_fails (fork_fails_at 0) = false) by reflexivity.
  assert (Hc : shell_calm (fork_fails_at 0) 0 (Z.to_nat 0) = true) by reflexivity.
  assert (Hp : pipe_fails (fork_fails_at 0) (2 * 0) = false) by reflexivity.
  assert (Hf : fork_fails (fork_fails_at 0) (Z.to_nat 0) = true) by reflexivity.
  assert (H0 : close_fails (fork_fails_at 0) Shell (2 * 0) = false) by reflexivity.
  assert (H1 : close_fails (fork_fails_at 0) Shell (2 * 0 + 1) = false)
    by reflexivity.
  repeat (split; [assumption|]).
  destruct (fork_failure_releases_new_channel (fork_fails_at 0) ["a"; "|"; "b"] 0
              Hi Hm Hc Hp Hf H0 H1) as (st & Hrun & _ & Hopen).
  exists st. split; assumption.
Defined.

(** X17 at ["a"; "|"; "b"; "|"; "c"] with the second [pipe] failing. *)
Lemma pipe_leaves_witness :
  0 <= 1 < ncommands_of ["a"; "|"; "b"; "|"; "c"] - 1 /\
  malloc_fails (pipe_fails_at 2) = false /\
  shell_calm (pipe_fails_at 2) 0 (Z.to_nat 1) = true /\
  pipe_fails (pipe_fails_at 2) (2 * 1) = true /\
  exists st : shell,
    run (pipe_fails_at 2) ["a"; "|"; "b"; "|"; "c"] = (st, Returned 1) /\
    open (sh_fds st) = [2 * 1 - 2].
Proof.
  assert (Hi : 0 <= 1 < ncommands_of ["a"; "|"; "b"; "|"; "c"] - 1)
    by (vm_compute; split; [discriminate|reflexivity]).
  assert (Hm : malloc_fails (pipe_fails_at 2) = false) by reflexivity.
  assert (Hc : shell_calm (pipe_fails_at 2) 0 (Z.to_nat 1) = true) by reflexivity.
  assert (Hp : pipe_fails (pipe_fails_at 2) (2 * 1) = true) by reflexivity.
  repeat (split; [assumption|]).
  destruct (pipe_failure_leaves_previous_read_end (pipe_fails_at 2)
              ["a"; "|"; "b"; "|"; "c"] 1 Hi Hm Hc Hp) as (st & Hrun & _ & Hopen).
  exists st. split; assumption.
Defined.
